(** * Grapefruit tiled maps: gid decoding, tilesets and map assembly

    A shallow embedding of [src/map/tiled/TiledTileset.js] and
    [src/map/tiled/TiledMap.js].

    JavaScript numbers that the code only ever uses as integers (gids,
    pixel sizes, tile counts) are modelled as [Z]; the 32-bit bitwise
    operators are written out with their [ToInt32] wrap-around.  The map
    scale, which may be fractional, is a double: NaN, or the rational value
    ([Qc]) of a finite double, with products rounded as binary64 rounds
    them.  Objects used as dictionaries are [gmap]s. *)

From Stdlib Require Import ZArith Lia QArith Qcanon Ascii.
From stdpp Require Import base option list gmap strings fin_maps.

#[local] Open Scope Z_scope.

(** ** 32-bit integer operators of JavaScript *)

(** [ToInt32]: reduce modulo 2^32 into the signed range. *)
Definition to_int32 (z : Z) : Z := (z + 2^31) mod 2^32 - 2^31.

(** [a & b] *)
Definition js_and (a b : Z) : Z := Z.land (to_int32 a) (to_int32 b).

(** [a | b] *)
Definition js_or (a b : Z) : Z := Z.lor (to_int32 a) (to_int32 b).

(** [~a] *)
Definition js_not (a : Z) : Z := Z.lnot (to_int32 a).

(** [~~(a / b)] for integer-valued [a] and [b]: the quotient is truncated
    towards zero and wrapped to 32 bits; a zero divisor gives an infinity
    or NaN, which [~~] turns into 0. *)
Definition js_trunc_div (a b : Z) : Z :=
  if b =? 0 then 0 else to_int32 (Z.quot a b).

(** [x || d] on numbers: 0 is the falsy number. *)
Definition js_num_or (x d : Z) : Z := if x =? 0 then d else x.

(** ** Tileset GID flags ([gf.TiledTileset.FLAGS]) *)

Definition FlippedX : Z := 0x80000000.
Definition FlippedY : Z := 0x40000000.
Definition RotatedCW : Z := 0x20000000.

(** [~(flags.FlippedX | flags.FlippedY | flags.RotatedCW)] *)
Definition unflag_mask : Z := js_not (js_or (js_or FlippedX FlippedY) RotatedCW).

(** [tileId &= ~(flags.FlippedX | flags.FlippedY | flags.RotatedCW)] *)
Definition unflag (tileId : Z) : Z := js_and tileId unflag_mask.

(** The decoded form of a gid, as the first lines of [getTileProperties]
    compute it: the three masked flag values and the id without flags. *)
Record Decoded := {
  rawId : Z;
  d_flippedX : Z;
  d_flippedY : Z;
  d_rotatedCW : Z
}.

Definition decode (tileId : Z) : Decoded :=
  {| d_flippedX := js_and tileId FlippedX;
     d_flippedY := js_and tileId FlippedY;
     d_rotatedCW := js_and tileId RotatedCW;
     rawId := unflag tileId |}.

(** A masked flag value read as a boolean (nonzero is truthy). *)
Definition flag_set (v : Z) : bool := negb (v =? 0).

(** The unsigned 32-bit value with raw id [r] and the given flag bits. *)
Definition withFlags (r : Z) (fx fy fr : bool) : Z :=
  r + (if fx then 2^31 else 0) + (if fy then 2^30 else 0)
    + (if fr then 2^29 else 0).

(** ** JavaScript values that reach the modelled code *)

(** A number is NaN or finite; a finite number is given by its rational
    value.  Infinities and the negative zero are not represented. *)
Inductive number := NaN | Fin (q : Qc).

Inductive value :=
| VUndefined
| VBool (b : bool)
| VNumber (n : number)
| VString (s : string).

(** Objects used as string-keyed dictionaries. *)
Abbreviation Obj := (gmap string value).

(** Raw custom properties, as the map file carries them: strings. *)
Abbreviation RawProps := (gmap string string).

Definition num_of_Z (z : Z) : number := Fin (Q2Qc (inject_Z z)).

(** [ToBoolean] *)
Definition truthy (v : value) : bool :=
  match v with
  | VUndefined => false
  | VBool b => b
  | VNumber NaN => false
  | VNumber (Fin q) => negb (bool_decide (q = Q2Qc 0))
  | VString s => negb (bool_decide (s = ""%string))
  end.

(** [a || b] on values *)
Definition js_or_val (a b : value) : value := if truthy a then a else b.

(** The integer part of the binary logarithm of [a / d], for positive [a]
    and [d]. *)
Definition floor_log2 (a d : Z) : Z :=
  let k := Z.log2 a - Z.log2 d in
  if (if 0 <=? k then d * 2 ^ k <=? a else d <=? a * 2 ^ (- k)) then k else k - 1.

(** Rounding of a rational to the nearest double (binary64, ties to even):
    53 significant bits, steps of [2^-1074] at the bottom of the range.  A
    value that rounds past the largest double is an infinity in the
    language, which [number] does not have: it is returned as [NaN], and no
    statement below concerns that case. *)
Definition round64 (q : Qc) : number :=
  let n := Qnum q in
  let d := Zpos (Qden q) in
  if n =? 0 then Fin (Q2Qc 0)
  else
    let a := Z.abs n in
    let e := Z.max (floor_log2 a d - 52) (-1074) in
    let num := if 0 <=? e then a else a * 2 ^ (- e) in
    let den := if 0 <=? e then d * 2 ^ e else d in
    let qz := num / den in
    let r := num mod den in
    let m := if 2 * r <? den then qz
             else if den <? 2 * r then qz + 1
             else if Z.even qz then qz else qz + 1 in
    let s := if n <? 0 then - m else m in
    if 0 <=? e
    then if 2 ^ 1024 <=? m * 2 ^ e then NaN else Fin (Q2Qc (inject_Z (s * 2 ^ e)))
    else Fin (Q2Qc (Qred (Qmake s (Z.to_pos (2 ^ (- e)))))).

(** [a * b] on numbers: the product, rounded to a double. *)
Definition js_mul (a b : number) : number :=
  match a, b with
  | Fin p, Fin q => round64 (p * q)
  | _, _ => NaN
  end.

(** [o.k]: a missing key reads as [undefined]. *)
Definition get_prop (o : Obj) (k : string) : value := default VUndefined (o !! k).

(** [settings.spacing || 0] where the field may be missing. *)
Definition js_opt_or (o : option Z) (d : Z) : Z :=
  match o with
  | Some v => js_num_or v d
  | None => d
  end.

(** ** Errors *)

Inductive Error := MissingAssetError.

Inductive result (A : Type) :=
| Ok (a : A)
| Throw (e : Error).
Arguments Ok {A} a.
Arguments Throw {A} e.

#[global] Instance result_bind : MBind result :=
  fun A B f m => match m with Ok a => f a | Throw e => Throw e end.

(** ** Geometry and textures (gf.Vector, PIXI.Rectangle, gf.Texture) *)

Record Vector (A : Type) := mkVector { x : A; y : A }.
Arguments mkVector {A} x y.
Arguments x {A} v.
Arguments y {A} v.

Record Rectangle := mkRectangle {
  rect_x : Z; rect_y : Z; rect_width : Z; rect_height : Z
}.

Record Source := { width : Z; height : Z }.
Record BaseTexture := { source : Source }.

(** [new gf.Texture(baseTexture, frame)]; the frame is absent for a whole
    atlas. *)
Record Texture := mkTexture {
  baseTexture : BaseTexture;
  frame : option Rectangle
}.

(** ** Descriptions: the parsed map document *)

Module Settings.
Record t := {
  firstgid : Z;
  name : string;
  tilewidth : Z;
  tileheight : Z;
  spacing : option Z;
  margin : option Z;
  tileoffset : option (Vector Z);
  properties : option RawProps;
  tileproperties : option (gmap Z (gmap string string));
  imagewidth : Z;
  imageheight : Z
}.
End Settings.

Module Layer.
Record t := { type : string; name : string }.
End Layer.

Module MapDesc.
Record t := {
  properties : option RawProps;
  tilewidth : Z;
  tileheight : Z;
  orientation : string;
  version : Z;
  backgroundColor : option string;
  width : Z;
  height : Z;
  tilesets : list Settings.t;
  layers : list Layer.t
}.
End MapDesc.

(** ** What the two files use but do not define

    [gf.assetCache], [gf.utils.parseTiledProperties], [gf.Tile.TYPE.NONE],
    the size that the base constructor [gf.Map] leaves in [this.size], and
    the language's string-to-number conversion are taken as parameters. *)
Record Host := {
  assetCache : gmap string Texture;
  parseTiledProperties : option RawProps -> option (gmap string value);
  TYPE_NONE : value;
  Map_size : MapDesc.t -> Vector number;
  StringToNumber : string -> number
}.

(** [ToNumber] *)
Definition ToNumber (host : Host) (v : value) : number :=
  match v with
  | VUndefined => NaN
  | VBool b => if b then num_of_Z 1 else num_of_Z 0
  | VNumber n => n
  | VString s => StringToNumber host s
  end.

(** ** Tilesets *)

Module Tileset.
Record t := {
  super : Texture;   (* the base Texture part: [this.baseTexture] *)
  firstgid : Z;
  name : string;
  tileSize : Vector Z;
  spacing : Z;
  margin : Z;
  tileoffset : Vector Z;
  numTiles : Vector Z;
  lastgid : Z;
  properties : option (gmap string value);
  tileproperties : gmap Z (gmap string value);
  size : Vector Z;
  textures : list Texture
}.

(** [this.tileproperties] is the only field written after construction. *)
Definition set_tileproperties (ts : t) (tp : gmap Z (gmap string value)) : t :=
  {| super := super ts; firstgid := firstgid ts; name := name ts;
     tileSize := tileSize ts; spacing := spacing ts; margin := margin ts;
     tileoffset := tileoffset ts; numTiles := numTiles ts;
     lastgid := lastgid ts; properties := properties ts;
     tileproperties := tp; size := size ts; textures := textures ts |}.
End Tileset.

(** The texture loop of the constructor: [n] iterations remain, [t] is the
    loop counter and [acc] is [this.textures]. *)
Fixpoint gen_textures (base : BaseTexture) (tileSize numTiles : Vector Z)
    (spacing margin : Z) (n : nat) (t : Z) (acc : list Texture) : list Texture :=
  match n with
  | O => acc
  | S n' =>
    let y0 := js_trunc_div t (x numTiles) in
    let x0 := t - y0 * x numTiles in
    let x1 := x0 * x tileSize + x0 * spacing + margin in
    let y1 := y0 * y tileSize + y0 * spacing + margin in
    gen_textures base tileSize numTiles spacing margin n' (t + 1)
      (acc ++ [mkTexture base (Some (mkRectangle x1 y1 (x tileSize) (y tileSize)))])
  end.

(** [gf.TiledTileset = function(settings)] *)
Definition TiledTileset (host : Host) (settings : Settings.t) : result Tileset.t :=
  match assetCache host !! (Settings.name settings +:+ "_texture")%string with
  | None => Throw MissingAssetError
  | Some asset =>
    let base := baseTexture asset in
    let firstgid := Settings.firstgid settings in
    let tileSize := mkVector (Settings.tilewidth settings) (Settings.tileheight settings) in
    let spacing := js_opt_or (Settings.spacing settings) 0 in
    let margin := js_opt_or (Settings.margin settings) 0 in
    let tileoffset :=
      mkVector (match Settings.tileoffset settings with Some o => x o | None => 0 end)
               (match Settings.tileoffset settings with Some o => y o | None => 0 end) in
    let numTiles :=
      mkVector (js_trunc_div (width (source base) - margin) (x tileSize - spacing))
               (js_trunc_div (height (source base) - margin) (y tileSize - spacing)) in
    let lastgid := firstgid + js_num_or (x numTiles * y numTiles - 1) 0 in
    let properties :=
      parseTiledProperties host (Some (default ∅ (Settings.properties settings))) in
    (* a tile entry that parses to a falsy value reads like a missing one *)
    let tileproperties :=
      omap (fun o => parseTiledProperties host (Some o))
           (default ∅ (Settings.tileproperties settings)) in
    let tl := lastgid - firstgid + 1 in
    let textures :=
      gen_textures base tileSize numTiles spacing margin (Z.to_nat tl) 0 [] in
    Ok {| Tileset.super := mkTexture base None;
          Tileset.firstgid := firstgid;
          Tileset.name := Settings.name settings;
          Tileset.tileSize := tileSize;
          Tileset.spacing := spacing;
          Tileset.margin := margin;
          Tileset.tileoffset := tileoffset;
          Tileset.numTiles := numTiles;
          Tileset.lastgid := lastgid;
          Tileset.properties := properties;
          Tileset.tileproperties := tileproperties;
          Tileset.size := mkVector (Settings.imagewidth settings) (Settings.imageheight settings);
          Tileset.textures := textures |}
  end.

(** ** Tileset methods *)

(** The record [getTileProperties] synthesises for an unauthored tile. *)
Definition default_props (host : Host) : Obj :=
  {[ "collidable"%string := VBool false;
     "breakable"%string := VBool false;
     "type"%string := TYPE_NONE host ]}.

(** [props.flippedX = flippedX; props.flippedY = flippedY;
     props.rotatedCW = rotatedCW] *)
Definition write_flags (flippedX flippedY rotatedCW : Z) (props : Obj) : Obj :=
  <[ "rotatedCW"%string := VNumber (num_of_Z rotatedCW) ]>
  (<[ "flippedY"%string := VNumber (num_of_Z flippedY) ]>
  (<[ "flippedX"%string := VNumber (num_of_Z flippedX) ]> props)).

(** What [getTileProperties] returns: [null], or the object held in
    [this.tileproperties] under a local index.  The object is returned by
    reference, so it is read through the tileset it lives in. *)
Inductive PropsRef :=
| PNull
| PRef (localId : Z).

Definition deref (ts : Tileset.t) (r : PropsRef) : option Obj :=
  match r with
  | PNull => None
  | PRef i => Tileset.tileproperties ts !! i
  end.

(** [getTileProperties: function(tileId)]; the tileset is threaded through
    because the call writes [this.tileproperties]. *)
Definition getTileProperties (host : Host) (ts : Tileset.t) (tileId : option Z)
    : Tileset.t * PropsRef :=
  match tileId with
  | None => (ts, PNull)
  | Some tileId =>
    let flippedX := js_and tileId FlippedX in
    let flippedY := js_and tileId FlippedY in
    let rotatedCW := js_and tileId RotatedCW in
    let tileId := unflag tileId in
    let tileId := tileId - Tileset.firstgid ts in
    if tileId <? 0 then (ts, PNull)
    else
      let props :=
        match Tileset.tileproperties ts !! tileId with
        | Some o => o
        | None => default_props host
        end in
      (* the three assignments go to the object that the cache holds *)
      let props := write_flags flippedX flippedY rotatedCW props in
      (Tileset.set_tileproperties ts (<[ tileId := props ]> (Tileset.tileproperties ts)),
       PRef tileId)
  end.

(** What [getTileTexture] returns: [null], a texture, or [undefined] when
    [this.textures] has no element at the index. *)
Inductive TextureResult :=
| TNull
| TUndefined
| TTexture (t : Texture).

(** [arr[i]] for an integer [i >= 0] *)
Definition array_get {A} (arr : list A) (i : Z) : option A := arr !! Z.to_nat i.

(** [getTileTexture: function(tileId)] *)
Definition getTileTexture (ts : Tileset.t) (tileId : option Z) : TextureResult :=
  match tileId with
  | None => TNull
  | Some tileId =>
    let tileId := unflag tileId in
    let tileId := tileId - Tileset.firstgid ts in
    if tileId <? 0 then TNull
    else
      match array_get (Tileset.textures ts) tileId with
      | Some t => TTexture t
      | None => TUndefined
      end
  end.

(** No texture came back: [null] or [undefined]. *)
Definition no_texture (r : TextureResult) : bool :=
  match r with
  | TTexture _ => false
  | _ => true
  end.

(** [contains: function(tileId)] *)
Definition contains (ts : Tileset.t) (tileId : option Z) : bool :=
  match tileId with
  | None => false
  | Some tileId =>
    let tileId := unflag tileId in
    (Tileset.firstgid ts <=? tileId) && (tileId <=? Tileset.lastgid ts)
  end.

(** [r] is the quotient [n / d] as [~~] leaves it: 0 for a zero divisor,
    otherwise the quotient rounded towards zero and wrapped to 32 bits,
    which is the floor for a non-negative [n] over a positive [d] and the
    ceiling for a negative [n] over a positive [d]. *)
Definition truncated_quotient (n d r : Z) : Prop :=
  (d = 0 -> r = 0) /\
  (d <> 0 -> r = to_int32 (Z.quot n d)) /\
  (d <> 0 -> - 2^31 <= Z.quot n d < 2^31 -> r = Z.quot n d) /\
  (0 < d -> 0 <= n < 2^31 -> r = n / d) /\
  (0 < d -> - 2^31 <= n < 0 -> r = - ((- n) / d)).

(** The unflagged gid lies in the tileset's range. *)
Definition owns (ts : Tileset.t) (g : Z) : Prop :=
  Tileset.firstgid ts <= unflag g <= Tileset.lastgid ts.

(** No raw id lies in the ranges of two tilesets at different positions. *)
Definition disjoint_ranges (tilesets : list Tileset.t) : Prop :=
  forall (i j : nat) a b, tilesets !! i = Some a -> tilesets !! j = Some b -> i <> j ->
    forall v, ~ (Tileset.firstgid a <= v <= Tileset.lastgid a /\
                 Tileset.firstgid b <= v <= Tileset.lastgid b).

(** ** Maps *)

(** The nodes the three layer constructors build. *)
Inductive LayerNode :=
| TiledLayer (d : Layer.t)
| TiledObjectGroup (d : Layer.t)
| ImageLayer (d : Layer.t).

Module Map.
Record t := {
  size : Vector number;
  properties : gmap string value;
  scale : Vector value;
  tileSize : Vector Z;
  orientation : string;
  version : Z;
  backgroundColor : option string;
  tilesets : list Tileset.t;
  scaledTileSize : Vector number;
  realSize : Vector number;
  (* the arguments of the calls [this.addChild(lyr)], in call order;
     [None] is [undefined] *)
  addChild_calls : list (option LayerNode)
}.
End Map.

(** The tileset loop of the map constructor; a throw leaves the loop. *)
Fixpoint build_tilesets (host : Host) (descs : list Settings.t) (acc : list Tileset.t)
    : result (list Tileset.t) :=
  match descs with
  | [] => Ok acc
  | s :: rest =>
    ts ← TiledTileset host s;
    build_tilesets host rest (acc ++ [ts])
  end.

(** One pass of the [switch] on the layer type: [lyr] is the function-scoped
    variable, which keeps its value when no case matches. *)
Definition layer_switch (d : Layer.t) (lyr : option LayerNode) : option LayerNode :=
  if String.eqb (Layer.type d) "tilelayer" then Some (TiledLayer d)
  else if String.eqb (Layer.type d) "objectgroup" then Some (TiledObjectGroup d)
  else if String.eqb (Layer.type d) "imagelayer" then Some (ImageLayer d)
  else lyr.

(** The layer loop: every pass ends with [this.addChild(lyr)]. *)
Fixpoint add_layers (descs : list Layer.t) (lyr : option LayerNode)
    (calls : list (option LayerNode)) : list (option LayerNode) :=
  match descs with
  | [] => calls
  | d :: rest =>
    let lyr := layer_switch d lyr in
    add_layers rest lyr (calls ++ [lyr])
  end.

(** [gf.TiledMap = function(map)] *)
Definition TiledMap (host : Host) (map : MapDesc.t) : result Map.t :=
  (* gf.Map.call(this, map) *)
  let size := Map_size host map in
  let properties := default ∅ (parseTiledProperties host (MapDesc.properties map)) in
  let scale :=
    mkVector (js_or_val (get_prop properties "scale") (VNumber (num_of_Z 1)))
             (js_or_val (get_prop properties "scale") (VNumber (num_of_Z 1))) in
  let tileSize := mkVector (MapDesc.tilewidth map) (MapDesc.tileheight map) in
  let scaledTileSize :=
    mkVector (js_mul (num_of_Z (MapDesc.tilewidth map)) (ToNumber host (x scale)))
             (js_mul (num_of_Z (MapDesc.tileheight map)) (ToNumber host (y scale))) in
  let realSize :=
    mkVector (js_mul (x size) (x scaledTileSize))
             (js_mul (y size) (y scaledTileSize)) in
  tilesets ← build_tilesets host (MapDesc.tilesets map) [];
  let calls := add_layers (MapDesc.layers map) None [] in
  Ok {| Map.size := size;
        Map.properties := properties;
        Map.scale := scale;
        Map.tileSize := tileSize;
        Map.orientation := MapDesc.orientation map;
        Map.version := MapDesc.version map;
        Map.backgroundColor := MapDesc.backgroundColor map;
        Map.tilesets := tilesets;
        Map.scaledTileSize := scaledTileSize;
        Map.realSize := realSize;
        Map.addChild_calls := calls |}.

(** The scan of [getTileset] over [this.tilesets]; falling off the end
    returns [undefined]. *)
Fixpoint getTileset_scan (tilesets : list Tileset.t) (tileId : option Z)
    : option Tileset.t :=
  match tilesets with
  | [] => None
  | ts :: rest => if contains ts tileId then Some ts else getTileset_scan rest tileId
  end.

(** [getTileset: function(tileId)] *)
Definition getTileset (map : Map.t) (tileId : option Z) : option Tileset.t :=
  getTileset_scan (Map.tilesets map) tileId.

(** ** A concrete host and concrete descriptions

    Used to run the constructors on explicit inputs. *)

Definition digit_of (c : ascii) : option Z :=
  let n := Z.of_nat (nat_of_ascii c) in
  if (48 <=? n) && (n <=? 57) then Some (n - 48) else None.

Fixpoint digits_val (l : list ascii) (acc : Z) : option Z :=
  match l with
  | [] => Some acc
  | c :: rest =>
    match digit_of c with
    | Some d => digits_val rest (10 * acc + d)
    | None => None
    end
  end.

(** Splits at the first dot. *)
Fixpoint split_dot (l : list ascii) : list ascii * option (list ascii) :=
  match l with
  | [] => ([], None)
  | c :: rest =>
    if Ascii.eqb c "." then ([], Some rest)
    else let '(a, b) := split_dot rest in (c :: a, b)
  end.

(** A decimal literal: an optional minus sign, digits, and an optional
    fraction. *)
Definition parse_decimal (s : string) : option Qc :=
  let l := String.list_ascii_of_string s in
  let '(neg, l) :=
    match l with
    | c :: rest => if Ascii.eqb c "-" then (true, rest) else (false, l)
    | [] => (false, l)
    end in
  let '(ip, fp) := split_dot l in
  let frac := default [] fp in
  match ip, fp, frac with
  | [], _, _ => None
  | _, Some _, [] => None
  | _, _, _ =>
    match digits_val ip 0, digits_val frac 0 with
    | Some i, Some f =>
      let den := 10 ^ Z.of_nat (length frac) in
      let n := i * den + f in
      Some (Q2Qc (Qmake (if neg then - n else n) (Z.to_pos den)))
    | _, _ => None
    end
  end.

(** Modelled from the spec: [gf.utils.parseTiledProperties] is not under
    src/.  Per entry it infers a boolean for "true"/"false", a number for a
    numeric-looking string (here: a decimal literal, read as the nearest
    double), and passes any other string through unchanged; a missing object
    stays missing. *)
Definition parseTiledProperties_spec (raw : option RawProps) : option Obj :=
  (fun o : RawProps =>
     (fun s : string =>
        if String.eqb s "true" then VBool true
        else if String.eqb s "false" then VBool false
        else match parse_decimal s with
             | Some q => VNumber (round64 q)
             | None => VString s
             end) <$> o) <$> raw.

(** String-to-number conversion on the same literals: the empty string is 0,
    a decimal literal is the nearest double, anything else is NaN. *)
Definition StringToNumber_dec (s : string) : number :=
  if String.eqb s "" then num_of_Z 0
  else match parse_decimal s with
       | Some q => round64 q
       | None => NaN
       end.

(** Modelled from the spec: [gf.Map], the base constructor, is not under
    src/; the spec gives the map a size in tiles, read from the width and
    height of the description. *)
Definition Map_size_spec (map : MapDesc.t) : Vector number :=
  mkVector (num_of_Z (MapDesc.width map)) (num_of_Z (MapDesc.height map)).

Definition atlas (w h : Z) : Texture :=
  mkTexture {| source := {| width := w; height := h |} |} None.

(** Two preloaded atlases: "A" is 128x128 pixels, "B" is 128x64. *)
Definition host0 : Host :=
  {| assetCache := {[ "A_texture"%string := atlas 128 128;
                      "B_texture"%string := atlas 128 64 ]};
     parseTiledProperties := parseTiledProperties_spec;
     TYPE_NONE := VString "none";
     Map_size := Map_size_spec;
     StringToNumber := StringToNumber_dec |}.

Definition settings0 (nm : string) (first tw th ih : Z) : Settings.t :=
  {| Settings.firstgid := first; Settings.name := nm;
     Settings.tilewidth := tw; Settings.tileheight := th;
     Settings.spacing := None; Settings.margin := None;
     Settings.tileoffset := None; Settings.properties := None;
     Settings.tileproperties := None;
     Settings.imagewidth := 128; Settings.imageheight := ih |}.

(** Tileset A: first gid 1, 4x4 tiles of 32x32. *)
Definition settingsA : Settings.t := settings0 "A" 1 32 32 128.

(** Tileset B: first gid 17, 4x2 tiles of 32x32. *)
Definition settingsB : Settings.t := settings0 "B" 17 32 32 64.

(** A tileset whose tiles are wider than its atlas: no tile fits. *)
Definition settingsWide : Settings.t := settings0 "A" 1 256 32 128.

(** A tileset whose atlas was not preloaded. *)
Definition settingsMissing : Settings.t := settings0 "C" 25 32 32 128.

Definition mapdesc0 (props : option RawProps) (sets : list Settings.t)
    (lyrs : list Layer.t) : MapDesc.t :=
  {| MapDesc.properties := props;
     MapDesc.tilewidth := 32; MapDesc.tileheight := 32;
     MapDesc.orientation := "orthogonal"; MapDesc.version := 1;
     MapDesc.backgroundColor := None;
     MapDesc.width := 10; MapDesc.height := 8;
     MapDesc.tilesets := sets; MapDesc.layers := lyrs |}.

(** A 10x8 map of tiles 3 pixels wide and 32 high. *)
Definition mapdesc3 (props : option RawProps) : MapDesc.t :=
  {| MapDesc.properties := props;
     MapDesc.tilewidth := 3; MapDesc.tileheight := 32;
     MapDesc.orientation := "orthogonal"; MapDesc.version := 1;
     MapDesc.backgroundColor := None;
     MapDesc.width := 10; MapDesc.height := 8;
     MapDesc.tilesets := []; MapDesc.layers := [] |}.

Definition scale_prop (s : string) : option RawProps :=
  Some {[ "scale"%string := s ]}.

Definition layer0 (ty : string) : Layer.t :=
  {| Layer.type := ty; Layer.name := "layer" |}.

(** A host whose only atlas, "G", is [w] by [h] pixels, and a descriptor of
    32x32 tiles over it with the given margin and spacing. *)
Definition hostGrid (w h : Z) : Host :=
  {| assetCache := {[ "G_texture"%string := atlas w h ]};
     parseTiledProperties := parseTiledProperties_spec;
     TYPE_NONE := VString "none";
     Map_size := Map_size_spec;
     StringToNumber := StringToNumber_dec |}.

Definition settingsGrid (mg sp : option Z) : Settings.t :=
  {| Settings.firstgid := 1; Settings.name := "G";
     Settings.tilewidth := 32; Settings.tileheight := 32;
     Settings.spacing := sp; Settings.margin := mg;
     Settings.tileoffset := None; Settings.properties := None;
     Settings.tileproperties := None;
     Settings.imagewidth := 0; Settings.imageheight := 0 |}.


(** ** Further definitions: tile frames, forwarding loops, events *)

(** The texture that one pass of the texture loop pushes, for loop
    counter [t]. *)
Definition tile_texture (base : BaseTexture) (tileSize numTiles : Vector Z)
    (spacing margin : Z) (t : Z) : Texture :=
  let y0 := js_trunc_div t (x numTiles) in
  let x0 := t - y0 * x numTiles in
  let x1 := x0 * x tileSize + x0 * spacing + margin in
  let y1 := y0 * y tileSize + y0 * spacing + margin in
  mkTexture base (Some (mkRectangle x1 y1 (x tileSize) (y tileSize))).

(** The loop counters [t, t+1, ..., t+n-1]. *)
Fixpoint counters (n : nat) (t : Z) : list Z :=
  match n with
  | O => []
  | S n' => t :: counters n' (t + 1)
  end.

(** Each tileset follows the one before it, and none has a negative
    number of gids. *)
Definition consecutive (tilesets : list Tileset.t) : Prop :=
  (forall ts, ts ∈ tilesets -> Tileset.firstgid ts - 1 <= Tileset.lastgid ts) /\
  (forall (i : nat) a b, tilesets !! i = Some a -> tilesets !! S i = Some b ->
     Tileset.lastgid a < Tileset.firstgid b).

(** The node a recognised layer descriptor is built into. *)
Definition recognised (d : Layer.t) : bool :=
  String.eqb (Layer.type d) "tilelayer" || String.eqb (Layer.type d) "objectgroup"
  || String.eqb (Layer.type d) "imagelayer".

(** A child of the map as the forwarding loops see it: its [type] field
    and an identity. *)
Module Child.
Record t := { type : string; id : nat }.
End Child.

(** The calls the map makes on its children and on its emitter, recorded
    in the order they are made; what a call does is outside these files. *)
Inductive Call :=
| CallResize (o : Child.t) (width height : Z)
| CallSpawn (o : Child.t)
| CallDespawn (o : Child.t)
| CallEmit (event : string) (subject : nat) (data : nat).

(** [for(var i = 0, il = this.children.length; i < il; ++i)] with a body
    that calls [f o] on the children whose type is [ty]: [n] passes remain,
    [i] is the index, [calls] the calls made so far. *)
Fixpoint forward_loop (children : list Child.t) (ty : string) (f : Child.t -> Call)
    (n i : nat) (calls : list Call) : list Call :=
  match n with
  | O => calls
  | S n' =>
    match children !! i with
    | Some o =>
      if String.eqb (Child.type o) ty
      then forward_loop children ty f n' (S i) (calls ++ [f o])
      else forward_loop children ty f n' (S i) calls
    | None => calls   (* not reached: [i < il] *)
    end
  end.

(** [resize: function(width, height)] *)
Definition resize (children : list Child.t) (width height : Z) : list Call :=
  forward_loop children "tilelayer" (fun o => CallResize o width height)
    (length children) 0 [].

(** [spawnObjects: function()] *)
Definition spawnObjects (children : list Child.t) : list Call :=
  forward_loop children "objectgroup" CallSpawn (length children) 0 [].

(** [despawnObjects: function()] *)
Definition despawnObjects (children : list Child.t) : list Call :=
  forward_loop children "objectgroup" CallDespawn (length children) 0 [].

(** [onTileEvent: function(eventName, tile, data)] *)
Definition onTileEvent (eventName : string) (tile data : nat) : Call :=
  CallEmit ("tile." +:+ eventName) tile data.

(** [onObjectEvent: function(eventName, obj, data)] *)
Definition onObjectEvent (eventName : string) (obj data : nat) : Call :=
  CallEmit ("object." +:+ eventName) obj data.

(** ** The fade effect of the camera ([gf.Camera.fx.Fade]) *)

(** The arguments [start] can be called with. *)
Inductive Arg :=
| AUndefined
| ANull
| ANumber (n : number)
| AFunction (f : nat).

(** [typeof a === 'function'] *)
Definition is_function (a : Arg) : bool :=
  match a with
  | AFunction _ => true
  | _ => false
  end.

(** What [start] leaves on the effect and on its graphics object. *)
Record Fade := {
  goal : number;
  duration : number;
  cb : Arg;
  gfx_visible : bool;
  gfx_alpha : number;
  fill : number   (* the colour passed to [beginFill] *)
}.

(** [start: function(color, duration, alpha, cb)] *)
Definition Fade_start (color duration alpha cb : Arg) : Fade :=
  let '(cb, alpha) :=
    if is_function alpha then (duration, ANull) else (cb, alpha) in
  let '(cb, alpha, duration) :=
    if is_function duration then (duration, ANull, ANull) else (cb, alpha, duration) in
  let '(cb, alpha, duration, color) :=
    if is_function color then (color, ANull, ANull, ANull)
    else (cb, alpha, duration, color) in
  (* color = typeof color === 'number' ? color : 0xFFFFFF *)
  let color :=
    match color with
    | ANumber n => n
    | _ => num_of_Z 0xFFFFFF
    end in
  (* this.goal = alpha || 1 *)
  let goal :=
    match alpha with
    | ANumber (Fin q) => if bool_decide (q = Q2Qc 0) then num_of_Z 1 else Fin q
    | _ => num_of_Z 1
    end in
  (* this.duration = duration && duration > 0 ? duration : 1000 *)
  let duration :=
    match duration with
    | ANumber (Fin q) => if bool_decide (Q2Qc 0 < q)%Qc then Fin q else num_of_Z 1000
    | _ => num_of_Z 1000
    end in
  {| goal := goal; duration := duration; cb := cb;
     gfx_visible := true; gfx_alpha := num_of_Z 0; fill := color |}.
(** ** Lemmas on the 32-bit operators *)

Ltac run := vm_compute; reflexivity.
Ltac in_range := vm_compute; split; discriminate.

Lemma to_int32_range z : - 2^31 <= to_int32 z < 2^31.
Proof.
  unfold to_int32.
  pose proof (Z.mod_pos_bound (z + 2^31) (2^32) ltac:(lia)). lia.
Qed.

Lemma to_int32_small z : - 2^31 <= z < 2^31 -> to_int32 z = z.
Proof.
  intros Hz. unfold to_int32. rewrite Z.mod_small; lia.
Qed.

Lemma to_int32_mod z n : 0 <= n <= 32 -> to_int32 z mod 2^n = z mod 2^n.
Proof.
  intros Hn. unfold to_int32.
  assert (Hd : 2^32 = 2^n * 2^(32 - n)).
  { rewrite <- Z.pow_add_r by lia. f_equal. lia. }
  assert (Hn31 : n = 32 \/ 2^31 = 2^n * 2^(31 - n)).
  { destruct (Z.eq_dec n 32) as [->|]; [now left|right].
    rewrite <- Z.pow_add_r by lia. f_equal. lia. }
  assert (Hp : 0 < 2^n) by (apply Z.pow_pos_nonneg; lia).
  rewrite (Z.mod_eq (z + 2^31) (2^32)) by lia.
  destruct Hn31 as [->|H31].
  - replace (z + 2 ^ 31 - 2 ^ 32 * ((z + 2 ^ 31) / 2 ^ 32) - 2 ^ 31)
      with (z + (- ((z + 2 ^ 31) / 2 ^ 32)) * 2 ^ 32) by lia.
    apply Z.mod_add. lia.
  - rewrite Hd at 1.
    replace (z + 2 ^ 31 - 2 ^ n * 2 ^ (32 - n) * ((z + 2 ^ 31) / 2 ^ 32) - 2 ^ 31)
      with (z + (- (2 ^ (32 - n) * ((z + 2 ^ 31) / 2 ^ 32))) * 2 ^ n) by lia.
    apply Z.mod_add. lia.
Qed.

Lemma land_pow2 x n :
  0 <= n -> Z.land x (2^n) = if Z.testbit x n then 2^n else 0.
Proof.
  intros Hn. apply Z.bits_inj'. intros i Hi.
  rewrite Z.land_spec, Z.pow2_bits_eqb by lia.
  destruct (Z.eqb_spec n i) as [->|Hne].
  - rewrite andb_true_r. destruct (Z.testbit x i) eqn:E.
    + now rewrite Z.pow2_bits_true.
    + now rewrite Z.bits_0.
  - rewrite andb_false_r. destruct (Z.testbit x n).
    + now rewrite Z.pow2_bits_false.
    + now rewrite Z.bits_0.
Qed.

Lemma land_sign x : Z.land x (- 2^31) = 2^31 * (x / 2^31).
Proof.
  change (- 2^31) with (Z.lnot (Z.ones 31)).
  rewrite <- Z.ldiff_land, Z.ldiff_ones_r by lia.
  rewrite Z.shiftl_mul_pow2, Z.shiftr_div_pow2 by lia. lia.
Qed.

Lemma testbit_to_int32 z n : 0 <= n < 32 -> Z.testbit (to_int32 z) n = Z.testbit z n.
Proof.
  intros Hn.
  rewrite <- (Z.mod_pow2_bits_low (to_int32 z) 32 n) by lia.
  rewrite to_int32_mod by lia.
  apply Z.mod_pow2_bits_low. lia.
Qed.

Lemma unflag_mask_val : unflag_mask = Z.ones 29.
Proof. reflexivity. Qed.

Lemma unflag_mod g : unflag g = g mod 2^29.
Proof.
  unfold unflag, js_and. rewrite unflag_mask_val.
  rewrite (to_int32_small (Z.ones 29)) by (change (Z.ones 29) with 536870911; lia).
  rewrite Z.land_ones by lia. apply to_int32_mod. lia.
Qed.

Lemma unflag_range g : 0 <= unflag g < 2^29.
Proof. rewrite unflag_mod. apply Z.mod_pos_bound. lia. Qed.

Lemma js_and_FlippedY g :
  js_and g FlippedY = if Z.testbit g 30 then 2^30 else 0.
Proof.
  unfold js_and, FlippedY. rewrite (to_int32_small 0x40000000) by lia.
  change 0x40000000 with (2^30). rewrite land_pow2 by lia.
  now rewrite testbit_to_int32 by lia.
Qed.

Lemma js_and_RotatedCW g :
  js_and g RotatedCW = if Z.testbit g 29 then 2^29 else 0.
Proof.
  unfold js_and, RotatedCW. rewrite (to_int32_small 0x20000000) by lia.
  change 0x20000000 with (2^29). rewrite land_pow2 by lia.
  now rewrite testbit_to_int32 by lia.
Qed.

Lemma js_and_FlippedX g :
  js_and g FlippedX = if Z.testbit g 31 then - 2^31 else 0.
Proof.
  unfold js_and, FlippedX.
  change (to_int32 0x80000000) with (- 2^31).
  rewrite land_sign.
  rewrite <- (testbit_to_int32 g 31) by lia.
  pose proof (to_int32_range g) as Hr.
  destruct (Z.testbit (to_int32 g) 31) eqn:E.
  - assert (to_int32 g < 0).
    { destruct (Z.neg_nonneg_cases (to_int32 g)) as [?|Hp]; [assumption|].
      rewrite (Z.bits_above_log2 (to_int32 g) 31) in E; [discriminate|assumption|].
      destruct (Z.eq_dec (to_int32 g) 0) as [->|]; [reflexivity|].
      apply Z.log2_lt_pow2; lia. }
    assert (to_int32 g / 2^31 = -1) by (symmetry; apply Z.div_unique with (r := to_int32 g + 2^31); lia).
    lia.
  - assert (0 <= to_int32 g).
    { destruct (Z.neg_nonneg_cases (to_int32 g)) as [Hn|?]; [|assumption].
      rewrite (Z.bits_above_log2_neg (to_int32 g) 31) in E; [discriminate|assumption|].
      destruct (Z.eq_dec (to_int32 g) (-1)) as [->|]; [reflexivity|].
      apply Z.log2_lt_pow2; [|unfold Z.pred]; lia. }
    rewrite Z.div_small by lia. lia.
Qed.

Lemma b2z_if (b : bool) (c : Z) : (if b then c else 0) = c * Z.b2z b.
Proof. destruct b; cbn [Z.b2z]; lia. Qed.

Lemma withFlags_range r fx fy fr :
  0 <= r < 2^29 -> 0 <= withFlags r fx fy fr < 2^32.
Proof. intros Hr. unfold withFlags. destruct fx, fy, fr; lia. Qed.

Lemma testbit_withFlags r fx fy fr :
  0 <= r < 2^29 ->
  Z.testbit (withFlags r fx fy fr) 31 = fx /\
  Z.testbit (withFlags r fx fy fr) 30 = fy /\
  Z.testbit (withFlags r fx fy fr) 29 = fr.
Proof.
  intros Hr.
  repeat split; apply Z.b2z_inj; rewrite Z.testbit_spec' by lia;
    unfold withFlags; destruct fx, fy, fr; cbn [Z.b2z];
    change (2^31) with 2147483648; change (2^30) with 1073741824;
    change (2^29) with 536870912 in *; Z.div_mod_to_equations; lia.
Qed.

Lemma unflag_withFlags r fx fy fr :
  0 <= r < 2^29 -> unflag (withFlags r fx fy fr) = r.
Proof.
  intros Hr. rewrite unflag_mod. unfold withFlags.
  destruct fx, fy, fr;
    change (2^31) with 2147483648; change (2^30) with 1073741824;
    change (2^29) with 536870912 in *; Z.div_mod_to_equations; lia.
Qed.

Lemma flag_set_FlippedX g : flag_set (js_and g FlippedX) = Z.testbit g 31.
Proof. rewrite js_and_FlippedX. now destruct (Z.testbit g 31). Qed.

Lemma flag_set_FlippedY g : flag_set (js_and g FlippedY) = Z.testbit g 30.
Proof. rewrite js_and_FlippedY. now destruct (Z.testbit g 30). Qed.

Lemma flag_set_RotatedCW g : flag_set (js_and g RotatedCW) = Z.testbit g 29.
Proof. rewrite js_and_RotatedCW. now destruct (Z.testbit g 29). Qed.

Lemma withFlags_decode g :
  0 <= g < 2^32 ->
  withFlags (g mod 2^29) (Z.testbit g 31) (Z.testbit g 30) (Z.testbit g 29) = g.
Proof.
  intros Hg. unfold withFlags. rewrite !b2z_if.
  rewrite !Z.testbit_spec' by lia.
  change (2^32) with 4294967296 in *.
  change (2^31) with 2147483648; change (2^30) with 1073741824;
    change (2^29) with 536870912; Z.div_mod_to_equations; lia.
Qed.

(** C4. Decoding the 32-bit value made of a 29-bit raw id [r] and flag
    bits [fx] (bit 31), [fy] (bit 30), [fr] (bit 29) gives back [r] as the
    raw id and exactly those flags: each masked flag value is the flag's
    own bit (as a signed 32-bit number) or 0.  Every unsigned 32-bit value
    is such a combination of its decoded raw id and flags, so decoding is
    defined on the whole 32-bit domain. *)
Theorem decode_flag_roundtrip :
  (forall r fx fy fr, 0 <= r < 2^29 ->
     let d := decode (withFlags r fx fy fr) in
     rawId d = r /\
     d_flippedX d = (if fx then - 2^31 else 0) /\
     d_flippedY d = (if fy then 2^30 else 0) /\
     d_rotatedCW d = (if fr then 2^29 else 0) /\
     flag_set (d_flippedX d) = fx /\
     flag_set (d_flippedY d) = fy /\
     flag_set (d_rotatedCW d) = fr) /\
  (forall g, 0 <= g < 2^32 ->
     let d := decode g in
     0 <= rawId d < 2^29 /\
     withFlags (rawId d) (flag_set (d_flippedX d)) (flag_set (d_flippedY d))
               (flag_set (d_rotatedCW d)) = g).
Proof.
  split.
  - intros r fx fy fr Hr. cbn [decode rawId d_flippedX d_flippedY d_rotatedCW].
    destruct (testbit_withFlags r fx fy fr Hr) as (Hx & Hy & Hc).
    rewrite flag_set_FlippedX, flag_set_FlippedY, flag_set_RotatedCW.
    rewrite js_and_FlippedX, js_and_FlippedY, js_and_RotatedCW.
    rewrite Hx, Hy, Hc. rewrite unflag_withFlags by assumption.
    repeat split; reflexivity.
  - intros g Hg. cbn [decode rawId d_flippedX d_flippedY d_rotatedCW].
    split; [apply unflag_range|].
    rewrite flag_set_FlippedX, flag_set_FlippedY, flag_set_RotatedCW.
    rewrite unflag_mod. now apply withFlags_decode.
Qed.

(** ** The tileset constructor *)

Lemma js_num_or_pred n : js_num_or (n - 1) 0 = n - 1.
Proof. unfold js_num_or. destruct (Z.eqb_spec (n - 1) 0); lia. Qed.

Lemma js_trunc_div_floor a b :
  0 <= a < 2^31 -> 0 < b -> js_trunc_div a b = a / b.
Proof.
  intros Ha Hb. unfold js_trunc_div.
  destruct (Z.eqb_spec b 0); [lia|].
  rewrite Z.quot_div_nonneg by lia.
  apply to_int32_small.
  pose proof (Z.div_pos a b ltac:(lia) Hb).
  pose proof (Z.div_le_upper_bound a b a Hb ltac:(nia)). lia.
Qed.

Lemma gen_textures_length base tsz nt sp mg n t acc :
  length (gen_textures base tsz nt sp mg n t acc) = (length acc + n)%nat.
Proof.
  revert t acc. induction n as [|n IH]; intros t acc; cbn [gen_textures].
  - lia.
  - rewrite IH, length_app. cbn. lia.
Qed.

(** What a successful construction stores, field by field. *)
Lemma TiledTileset_Ok host settings ts :
  TiledTileset host settings = Ok ts ->
  exists asset,
    assetCache host !! (Settings.name settings +:+ "_texture")%string = Some asset /\
    Tileset.firstgid ts = Settings.firstgid settings /\
    Tileset.margin ts = js_opt_or (Settings.margin settings) 0 /\
    Tileset.spacing ts = js_opt_or (Settings.spacing settings) 0 /\
    Tileset.tileSize ts = mkVector (Settings.tilewidth settings) (Settings.tileheight settings) /\
    Tileset.numTiles ts =
      mkVector (js_trunc_div (width (source (baseTexture asset)) - Tileset.margin ts)
                             (x (Tileset.tileSize ts) - Tileset.spacing ts))
               (js_trunc_div (height (source (baseTexture asset)) - Tileset.margin ts)
                             (y (Tileset.tileSize ts) - Tileset.spacing ts)) /\
    Tileset.lastgid ts =
      Tileset.firstgid ts + (x (Tileset.numTiles ts) * y (Tileset.numTiles ts) - 1) /\
    length (Tileset.textures ts) =
      Z.to_nat (Tileset.lastgid ts - Tileset.firstgid ts + 1).
Proof.
  unfold TiledTileset.
  destruct (assetCache host !! _) as [asset|] eqn:E; [|discriminate].
  intros [= <-]. exists asset. cbn.
  rewrite js_num_or_pred, gen_textures_length. cbn.
  repeat split; reflexivity.
Qed.

(** C2 (as the code has it). Every constructed tileset has
    [lastgid = firstgid + numTiles.x * numTiles.y - 1], whatever the
    product is, and as many textures as that range holds.  When the product
    is 0 this makes [lastgid = firstgid - 1] (an empty range), and the
    textures list is empty. *)
Theorem lastgid_invariant host settings ts :
  TiledTileset host settings = Ok ts ->
  let n := x (Tileset.numTiles ts) * y (Tileset.numTiles ts) in
  Tileset.lastgid ts = Tileset.firstgid ts + n - 1 /\
  length (Tileset.textures ts) = Z.to_nat n /\
  (n = 0 -> Tileset.lastgid ts = Tileset.firstgid ts - 1 /\ Tileset.textures ts = []).
Proof.
  intros H n. destruct (TiledTileset_Ok _ _ _ H) as (asset & _ & _ & _ & _ & _ & _ & Hl & Hlen).
  fold n in Hl.
  assert (Hlen' : length (Tileset.textures ts) = Z.to_nat n).
  { rewrite Hlen. f_equal. lia. }
  split; [lia|]. split; [assumption|].
  intros Hn. split; [lia|].
  apply length_zero_iff_nil. rewrite Hlen', Hn. reflexivity.
Qed.

Lemma js_trunc_div_truncates n d : truncated_quotient n d (js_trunc_div n d).
Proof.
  unfold truncated_quotient, js_trunc_div.
  destruct (Z.eqb_spec d 0) as [->|Hd].
  - repeat split; intros; (reflexivity || lia).
  - split; [intros; lia|]. split; [reflexivity|].
    split; [intros _ Hq; now apply to_int32_small|]. split.
    + intros Hp Hn. rewrite Z.quot_div_nonneg by lia.
      apply to_int32_small.
      pose proof (Z.div_pos n d ltac:(lia) Hp).
      pose proof (Z.div_le_upper_bound n d n Hp ltac:(nia)). lia.
    + intros Hp Hn.
      replace n with (- (- n)) at 1 by lia.
      rewrite Z.quot_opp_l, Z.quot_div_nonneg by lia.
      apply to_int32_small.
      pose proof (Z.div_pos (- n) d ltac:(lia) Hp).
      pose proof (Z.div_le_upper_bound (- n) d (- n) Hp ltac:(nia)). lia.
Qed.

(** C9 (as the code has it). [numTiles.x] is the quotient of
    (atlas width - margin) by (tile width - spacing) as [~~] leaves it, and
    [numTiles.y] likewise from the heights: 0 when the tile size equals the
    spacing, otherwise the quotient rounded towards zero and wrapped to 32
    bits.  That is the floor when the margin lies inside the atlas and the
    spacing is below the tile size, and the ceiling when the margin is
    larger than the atlas.  A 256 pixel wide atlas of 32 pixel tiles has 8
    columns, and so has a 258 pixel wide one with margin 2 and spacing 2. *)
Theorem numTiles_truncated :
  (forall host settings asset ts,
     assetCache host !! (Settings.name settings +:+ "_texture")%string = Some asset ->
     TiledTileset host settings = Ok ts ->
     truncated_quotient
       (width (source (baseTexture asset)) - Tileset.margin ts)
       (x (Tileset.tileSize ts) - Tileset.spacing ts)
       (x (Tileset.numTiles ts)) /\
     truncated_quotient
       (height (source (baseTexture asset)) - Tileset.margin ts)
       (y (Tileset.tileSize ts) - Tileset.spacing ts)
       (y (Tileset.numTiles ts))) /\
  (exists ts, TiledTileset (hostGrid 256 256) (settingsGrid None None) = Ok ts /\
     Tileset.margin ts = 0 /\ Tileset.spacing ts = 0 /\
     x (Tileset.tileSize ts) = 32 /\ x (Tileset.numTiles ts) = 8) /\
  (exists ts, TiledTileset (hostGrid 258 258) (settingsGrid (Some 2) (Some 2)) = Ok ts /\
     Tileset.margin ts = 2 /\ Tileset.spacing ts = 2 /\
     x (Tileset.tileSize ts) = 32 /\
     x (Tileset.numTiles ts) = (258 - 2) / (32 - 2) /\ x (Tileset.numTiles ts) = 8).
Proof.
  split; [|split].
  - intros host settings asset ts Ha H.
    destruct (TiledTileset_Ok _ _ _ H) as (asset' & Ha' & _ & _ & _ & _ & Hn & _).
    rewrite Ha in Ha'. injection Ha' as <-. rewrite Hn. cbn [x y].
    split; apply js_trunc_div_truncates.
  - eexists. split; [reflexivity|]. repeat split; reflexivity.
  - eexists. split; [reflexivity|]. repeat split; reflexivity.
Qed.

(** ** Range lookup *)

Lemma contains_owns ts g : contains ts (Some g) = true <-> owns ts g.
Proof.
  unfold contains, owns. rewrite andb_true_iff, !Z.leb_le. tauto.
Qed.

Lemma disjoint_ranges_tail ts rest :
  disjoint_ranges (ts :: rest) -> disjoint_ranges rest.
Proof.
  intros Hd i j a b Hi Hj Hne. apply (Hd (S i) (S j) a b); auto.
Qed.

Lemma getTileset_scan_owner tilesets g ts :
  disjoint_ranges tilesets -> ts ∈ tilesets -> owns ts g ->
  getTileset_scan tilesets (Some g) = Some ts.
Proof.
  induction tilesets as [|t0 rest IH]; intros Hd Hin Ho.
  - inversion Hin.
  - cbn [getTileset_scan].
    destruct (contains t0 (Some g)) eqn:Ec.
    + apply contains_owns in Ec.
      apply elem_of_cons in Hin as [->|Hin]; [reflexivity|].
      apply list_elem_of_lookup in Hin as [j Hj].
      exfalso. apply (Hd 0%nat (S j) t0 ts eq_refl Hj ltac:(lia) (unflag g)).
      split; [exact Ec|exact Ho].
    + apply elem_of_cons in Hin as [->|Hin].
      * apply contains_owns in Ho. congruence.
      * apply IH; [eapply disjoint_ranges_tail; eassumption|assumption..].
Qed.

Lemma getTileset_scan_none tilesets g :
  (forall ts, ts ∈ tilesets -> ~ owns ts g) ->
  getTileset_scan tilesets (Some g) = None.
Proof.
  induction tilesets as [|t0 rest IH]; intros Hn; [reflexivity|].
  cbn [getTileset_scan].
  destruct (contains t0 (Some g)) eqn:Ec.
  - apply contains_owns in Ec. exfalso. apply (Hn t0); [left|assumption].
  - apply IH. intros ts Hin. apply Hn. now right.
Qed.

(** C3. For tilesets with non-overlapping ranges, [getTileset] returns
    exactly the tileset whose [firstgid, lastgid] range holds the gid once
    its flags are removed, and nothing when no range holds it.  For a map
    with tileset A (gids 1 to 16) followed by B (gids 17 to 24) every gid
    whose unflagged value is in 1..16 gives A, in 17..24 gives B, and 25
    gives nothing. *)
Theorem getTileset_owner :
  (forall map g ts,
     disjoint_ranges (Map.tilesets map) -> ts ∈ Map.tilesets map -> owns ts g ->
     getTileset map (Some g) = Some ts) /\
  (forall map g,
     (forall ts, ts ∈ Map.tilesets map -> ~ owns ts g) ->
     getTileset map (Some g) = None) /\
  (forall map A B,
     Map.tilesets map = [A; B] ->
     Tileset.firstgid A = 1 -> Tileset.lastgid A = 16 ->
     Tileset.firstgid B = 17 -> Tileset.lastgid B = 24 ->
     forall g,
       (1 <= unflag g <= 16 -> getTileset map (Some g) = Some A) /\
       (17 <= unflag g <= 24 -> getTileset map (Some g) = Some B) /\
       (unflag g = 25 -> getTileset map (Some g) = None)).
Proof.
  split; [|split].
  - intros map g ts. apply getTileset_scan_owner.
  - intros map g. apply getTileset_scan_none.
  - intros map A B Hts HA1 HA2 HB1 HB2 g. unfold getTileset. rewrite Hts.
    cbn [getTileset_scan]. unfold contains. rewrite HA1, HA2, HB1, HB2.
    repeat split; intros Hg;
      repeat match goal with
             | |- context [?a <=? ?b] => destruct (Z.leb_spec a b); try lia
             end; reflexivity.
Qed.

(** ** Tile properties and textures *)

Lemma getTileProperties_record host ts g :
  Tileset.firstgid ts <= unflag g ->
  getTileProperties host ts (Some g) =
    (Tileset.set_tileproperties ts
       (<[ unflag g - Tileset.firstgid ts :=
             write_flags (js_and g FlippedX) (js_and g FlippedY) (js_and g RotatedCW)
               (default (default_props host)
                  (Tileset.tileproperties ts !! (unflag g - Tileset.firstgid ts))) ]>
          (Tileset.tileproperties ts)),
     PRef (unflag g - Tileset.firstgid ts)).
Proof.
  intros Hg. unfold getTileProperties.
  destruct (Z.ltb_spec (unflag g - Tileset.firstgid ts) 0); [lia|].
  now destruct (Tileset.tileproperties ts !! _).
Qed.

Lemma getTileProperties_null host ts g :
  unflag g < Tileset.firstgid ts ->
  getTileProperties host ts (Some g) = (ts, PNull).
Proof.
  intros Hg. unfold getTileProperties.
  destruct (Z.ltb_spec (unflag g - Tileset.firstgid ts) 0); [reflexivity|lia].
Qed.

(** The first lines of [getTileProperties] are [decode]. *)
Lemma getTileProperties_decode host ts g :
  getTileProperties host ts (Some g) =
    let d := decode g in
    let i := rawId d - Tileset.firstgid ts in
    if i <? 0 then (ts, PNull)
    else (Tileset.set_tileproperties ts
            (<[ i := write_flags (d_flippedX d) (d_flippedY d) (d_rotatedCW d)
                       (default (default_props host) (Tileset.tileproperties ts !! i)) ]>
               (Tileset.tileproperties ts)),
          PRef i).
Proof.
  unfold getTileProperties, decode. cbn [rawId d_flippedX d_flippedY d_rotatedCW].
  destruct (_ <? 0); [reflexivity|].
  now destruct (Tileset.tileproperties ts !! _).
Qed.

Lemma write_flags_lookup_other a b c (o : Obj) (k : string) :
  k <> "flippedX"%string -> k <> "flippedY"%string -> k <> "rotatedCW"%string ->
  write_flags a b c o !! k = o !! k.
Proof.
  intros H1 H2 H3. unfold write_flags.
  now rewrite !lookup_insert_ne by congruence.
Qed.

Lemma write_flags_lookup a b c (o : Obj) :
  write_flags a b c o !! "flippedX"%string = Some (VNumber (num_of_Z a)) /\
  write_flags a b c o !! "flippedY"%string = Some (VNumber (num_of_Z b)) /\
  write_flags a b c o !! "rotatedCW"%string = Some (VNumber (num_of_Z c)).
Proof.
  unfold write_flags. repeat split.
  - rewrite !lookup_insert_ne by discriminate. apply lookup_insert_eq.
  - rewrite lookup_insert_ne by discriminate. apply lookup_insert_eq.
  - apply lookup_insert_eq.
Qed.

Lemma write_flags_twice a b c a' b' c' (o : Obj) :
  write_flags a b c (write_flags a' b' c' o) = write_flags a b c o.
Proof.
  apply map_eq. intros k. unfold write_flags.
  rewrite !lookup_insert. repeat case_decide; reflexivity.
Qed.

Lemma default_props_lookup host :
  default_props host !! "collidable"%string = Some (VBool false) /\
  default_props host !! "breakable"%string = Some (VBool false) /\
  default_props host !! "type"%string = Some (TYPE_NONE host).
Proof.
  unfold default_props. split; [|split]; reflexivity.
Qed.

(** C5. On a tileset with no authored properties at the local index of a
    gid that is not below [firstgid], the first [getTileProperties] call
    returns the default record (collidable false, breakable false, type
    NONE) carrying the three flag values masked out of the queried gid; a
    second call with the same raw id and other flag bits returns the same
    collidable, breakable and type values with the flags of the second
    gid. *)
Theorem getTileProperties_default host ts g g2
    (Hv : Tileset.firstgid ts <= unflag g)
    (Hun : Tileset.tileproperties ts !! (unflag g - Tileset.firstgid ts) = None)
    (Hsame : unflag g2 = unflag g) :
  let c1 := getTileProperties host ts (Some g) in
  let c2 := getTileProperties host (fst c1) (Some g2) in
  let props g := write_flags (js_and g FlippedX) (js_and g FlippedY)
                   (js_and g RotatedCW) (default_props host) in
  snd c1 = PRef (unflag g - Tileset.firstgid ts) /\
  deref (fst c1) (snd c1) = Some (props g) /\
  snd c2 = snd c1 /\
  deref (fst c2) (snd c2) = Some (props g2) /\
  (forall h,
     props h !! "collidable"%string = Some (VBool false) /\
     props h !! "breakable"%string = Some (VBool false) /\
     props h !! "type"%string = Some (TYPE_NONE host) /\
     props h !! "flippedX"%string = Some (VNumber (num_of_Z (js_and h FlippedX))) /\
     props h !! "flippedY"%string = Some (VNumber (num_of_Z (js_and h FlippedY))) /\
     props h !! "rotatedCW"%string = Some (VNumber (num_of_Z (js_and h RotatedCW)))).
Proof.
  intros c1 c2 props. subst c1 c2.
  rewrite (getTileProperties_record host ts g Hv), Hun. cbn [fst snd default].
  rewrite getTileProperties_record by (cbn; lia).
  cbn [fst snd deref Tileset.set_tileproperties Tileset.tileproperties Tileset.firstgid].
  rewrite Hsame, !lookup_insert_eq. cbn [default].
  unfold id. rewrite write_flags_twice. subst props. cbv beta.
  repeat split; try reflexivity.
  all: try (rewrite write_flags_lookup_other by discriminate; apply default_props_lookup).
  all: apply write_flags_lookup.
Qed.

Lemma getTileTexture_null ts tileId :
  getTileTexture ts tileId = TNull <->
  tileId = None \/ exists g, tileId = Some g /\ unflag g < Tileset.firstgid ts.
Proof.
  unfold getTileTexture. destruct tileId as [g|]; [|intuition].
  destruct (Z.ltb_spec (unflag g - Tileset.firstgid ts) 0).
  - split; [intros _; right; exists g; split; [reflexivity|lia]|reflexivity].
  - split.
    + destruct (array_get _ _); discriminate.
    + intros [?|(g' & [= <-] & ?)]; [discriminate|lia].
Qed.

Lemma getTileProperties_null_iff host ts tileId :
  snd (getTileProperties host ts tileId) = PNull <->
  tileId = None \/ exists g, tileId = Some g /\ unflag g < Tileset.firstgid ts.
Proof.
  destruct tileId as [g|]; [|cbn; intuition].
  destruct (Z.lt_ge_cases (unflag g) (Tileset.firstgid ts)) as [Hlt|Hge].
  - rewrite getTileProperties_null by assumption. cbn.
    split; [intros _; right; eauto|reflexivity].
  - rewrite getTileProperties_record by assumption. cbn.
    split; [discriminate|].
    intros [?|(g' & [= <-] & ?)]; [discriminate|lia].
Qed.

Lemma getTileTexture_above host settings ts g :
  TiledTileset host settings = Ok ts ->
  Tileset.firstgid ts <= unflag g -> Tileset.lastgid ts < unflag g ->
  getTileTexture ts (Some g) = TUndefined.
Proof.
  intros H Hlo Hhi.
  destruct (TiledTileset_Ok _ _ _ H) as (_ & _ & _ & _ & _ & _ & _ & _ & Hlen).
  unfold getTileTexture.
  destruct (Z.ltb_spec (unflag g - Tileset.firstgid ts) 0); [lia|].
  unfold array_get. rewrite lookup_ge_None_2; [reflexivity|].
  rewrite Hlen. lia.
Qed.

(** C6 (as the code has it). The ownership check of [getTileProperties]
    and [getTileTexture] tests the lower bound only: each returns [null]
    exactly when the gid is undefined or its unflagged value is below
    [firstgid].  Above [lastgid], [getTileTexture] on a constructed tileset
    still gives no texture: the index is past the end of [textures] and the
    result is [undefined].  [getTileProperties] does not stop there: for a
    gid whose unflagged value is above [lastgid] and not below [firstgid],
    at an unauthored local index, [getTileset] on a map holding that
    tileset alone returns nothing while [getTileProperties] returns a new
    default record and stores it in the cache. *)
Theorem lower_bound_only_check :
  (forall host ts tileId,
     snd (getTileProperties host ts tileId) = PNull <->
     tileId = None \/ exists g, tileId = Some g /\ unflag g < Tileset.firstgid ts) /\
  (forall ts tileId,
     getTileTexture ts tileId = TNull <->
     tileId = None \/ exists g, tileId = Some g /\ unflag g < Tileset.firstgid ts) /\
  (forall host settings ts g,
     TiledTileset host settings = Ok ts ->
     Tileset.firstgid ts <= unflag g -> Tileset.lastgid ts < unflag g ->
     getTileTexture ts (Some g) = TUndefined) /\
  (forall host map ts g,
     Map.tilesets map = [ts] ->
     Tileset.firstgid ts <= unflag g -> Tileset.lastgid ts < unflag g ->
     Tileset.tileproperties ts !! (unflag g - Tileset.firstgid ts) = None ->
     getTileset map (Some g) = None /\
     snd (getTileProperties host ts (Some g)) = PRef (unflag g - Tileset.firstgid ts) /\
     deref (fst (getTileProperties host ts (Some g)))
           (snd (getTileProperties host ts (Some g))) =
       Some (write_flags (js_and g FlippedX) (js_and g FlippedY) (js_and g RotatedCW)
               (default_props host))).
Proof.
  split; [exact getTileProperties_null_iff|].
  split; [exact getTileTexture_null|].
  split; [exact getTileTexture_above|].
  intros host map ts g Hts Hlo Hhi Hun.
  split.
  - unfold getTileset. rewrite Hts. cbn [getTileset_scan].
    destruct (contains ts (Some g)) eqn:Ec; [|reflexivity].
    apply contains_owns in Ec. unfold owns in Ec. lia.
  - rewrite getTileProperties_record by assumption. rewrite Hun.
    cbn [fst snd deref Tileset.set_tileproperties Tileset.tileproperties default].
    split; [reflexivity|]. now rewrite lookup_insert_eq.
Qed.

(** C7 (as the code has it). The record that [getTileProperties] returns
    is the cache entry itself, so the flag fields written on it stay in the
    cache: after a call that returns a record, the entry at the queried
    local index is the entry before the call (the default record when
    there was none) with [flippedX], [flippedY] and [rotatedCW] set from
    the queried gid.  Every other field of the entry, and every other
    entry, is as before; a call that returns [null] changes nothing. *)
Theorem getTileProperties_cache host ts tileId :
  match snd (getTileProperties host ts tileId) with
  | PNull => fst (getTileProperties host ts tileId) = ts
  | PRef i =>
    exists g entry,
      tileId = Some g /\ i = unflag g - Tileset.firstgid ts /\
      Tileset.tileproperties (fst (getTileProperties host ts tileId)) !! i = Some entry /\
      deref (fst (getTileProperties host ts tileId)) (PRef i) = Some entry /\
      entry = write_flags (js_and g FlippedX) (js_and g FlippedY) (js_and g RotatedCW)
                (default (default_props host) (Tileset.tileproperties ts !! i)) /\
      entry !! "flippedX"%string = Some (VNumber (num_of_Z (js_and g FlippedX))) /\
      entry !! "flippedY"%string = Some (VNumber (num_of_Z (js_and g FlippedY))) /\
      entry !! "rotatedCW"%string = Some (VNumber (num_of_Z (js_and g RotatedCW))) /\
      (forall k : string,
         k <> "flippedX"%string -> k <> "flippedY"%string -> k <> "rotatedCW"%string ->
         entry !! k =
         default (default_props host) (Tileset.tileproperties ts !! i) !! k) /\
      (forall j, j <> i ->
         Tileset.tileproperties (fst (getTileProperties host ts tileId)) !! j =
         Tileset.tileproperties ts !! j)
  end.
Proof.
  destruct tileId as [g|]; [|reflexivity].
  destruct (Z.lt_ge_cases (unflag g) (Tileset.firstgid ts)) as [Hlt|Hge].
  - now rewrite getTileProperties_null.
  - rewrite getTileProperties_record by assumption.
    cbn [fst snd deref Tileset.set_tileproperties Tileset.tileproperties].
    eexists g, _. split; [reflexivity|]. split; [reflexivity|].
    split; [apply lookup_insert_eq|]. split; [apply lookup_insert_eq|].
    split; [reflexivity|].
    split; [apply write_flags_lookup|].
    split; [apply write_flags_lookup|].
    split; [apply write_flags_lookup|].
    split.
    + intros k H1 H2 H3. now apply write_flags_lookup_other.
    + intros j Hj. now rewrite lookup_insert_ne by congruence.
Qed.

(** ** Map construction *)

Lemma TiledTileset_Throw host settings e :
  TiledTileset host settings = Throw e <->
  assetCache host !! (Settings.name settings +:+ "_texture")%string = None.
Proof.
  unfold TiledTileset.
  destruct (assetCache host !! _); split; intros H; try discriminate.
  - reflexivity.
  - now destruct e.
Qed.

Lemma build_tilesets_Throw host descs acc s e :
  s ∈ descs -> TiledTileset host s = Throw e ->
  build_tilesets host descs acc = Throw e.
Proof.
  intros Hin Hs. revert acc.
  induction descs as [|d rest IH]; intros acc; [inversion Hin|].
  cbn [build_tilesets]. unfold mbind, result_bind.
  apply elem_of_cons in Hin as [<-|Hin].
  - now rewrite Hs.
  - destruct (TiledTileset host d) as [ts|e'].
    + now apply IH.
    + now destruct e, e'.
Qed.

(** C8. Constructing a tileset throws exactly when the asset cache has
    nothing under the tileset's name followed by [_texture], and it then
    yields the error alone, no tileset; otherwise it yields a tileset.  A
    map whose description lists a tileset that fails to build is not built
    either: its construction ends with the same error. *)
Theorem missing_asset_aborts :
  (forall host settings,
     TiledTileset host settings = Throw MissingAssetError <->
     assetCache host !! (Settings.name settings +:+ "_texture")%string = None) /\
  (forall host settings,
     (exists ts, TiledTileset host settings = Ok ts) <->
     is_Some (assetCache host !! (Settings.name settings +:+ "_texture")%string)) /\
  (forall host map s,
     s ∈ MapDesc.tilesets map ->
     TiledTileset host s = Throw MissingAssetError ->
     TiledMap host map = Throw MissingAssetError).
Proof.
  split; [|split].
  - intros host settings. apply TiledTileset_Throw.
  - intros host settings. split.
    + intros [ts H]. destruct (TiledTileset_Ok _ _ _ H) as (a & Ha & _). eauto.
    + intros [a Ha]. unfold TiledTileset. rewrite Ha. eauto.
  - intros host map s Hin Hs. unfold TiledMap.
    now rewrite (build_tilesets_Throw host _ [] s MissingAssetError Hin Hs).
Qed.

Lemma TiledMap_Ok host map m :
  TiledMap host map = Ok m ->
  Map.properties m = default ∅ (parseTiledProperties host (MapDesc.properties map)) /\
  Map.size m = Map_size host map /\
  Map.tileSize m = mkVector (MapDesc.tilewidth map) (MapDesc.tileheight map) /\
  Map.scale m =
    mkVector (js_or_val (get_prop (Map.properties m) "scale") (VNumber (num_of_Z 1)))
             (js_or_val (get_prop (Map.properties m) "scale") (VNumber (num_of_Z 1))) /\
  Map.realSize m =
    mkVector (js_mul (x (Map.size m))
                (js_mul (num_of_Z (x (Map.tileSize m))) (ToNumber host (x (Map.scale m)))))
             (js_mul (y (Map.size m))
                (js_mul (num_of_Z (y (Map.tileSize m))) (ToNumber host (y (Map.scale m))))) /\
  Map.addChild_calls m = add_layers (MapDesc.layers map) None [].
Proof.
  unfold TiledMap, mbind, result_bind.
  destruct (build_tilesets host (MapDesc.tilesets map) []); [|discriminate].
  intros [= <-]. cbn. repeat split; reflexivity.
Qed.

Lemma js_or_val_truthy v d : truthy v = true -> js_or_val v d = v.
Proof. unfold js_or_val. now intros ->. Qed.

Lemma js_or_val_falsy v d : truthy v = false -> js_or_val v d = d.
Proof. unfold js_or_val. now intros ->. Qed.

(** C10 (as the code has it). The scale of a constructed map is the
    parsed [scale] custom property when that value is truthy, and 1 when it
    is missing or falsy (0, NaN, false, the empty string); a non-empty
    string is kept, numeric or not.  When the scale converts to a finite
    number and the products are finite, the real size is, in each
    dimension, the map size in tiles times (the tile size times the scale),
    each product rounded to a double, in that order.  Whenever both
    products are exactly representable the real size is exactly map size
    times tile size times scale. *)
Theorem realSize_scaled host map m (H : TiledMap host map = Ok m) :
  let tw := MapDesc.tilewidth map in
  let th := MapDesc.tileheight map in
  let p := get_prop (default ∅ (parseTiledProperties host (MapDesc.properties map))) "scale" in
  let scale := js_or_val p (VNumber (num_of_Z 1)) in
  Map.size m = Map_size host map /\
  Map.scale m = mkVector scale scale /\
  (truthy p = true -> scale = p) /\
  (truthy p = false -> scale = VNumber (num_of_Z 1)) /\
  (forall sx sy q rx ry : Qc,
     Map.size m = mkVector (Fin sx) (Fin sy) ->
     ToNumber host scale = Fin q ->
     js_mul (Fin sx) (js_mul (num_of_Z tw) (Fin q)) = Fin rx ->
     js_mul (Fin sy) (js_mul (num_of_Z th) (Fin q)) = Fin ry ->
     Map.realSize m = mkVector (Fin rx) (Fin ry)) /\
  (forall sx sy q : Qc,
     Map.size m = mkVector (Fin sx) (Fin sy) ->
     ToNumber host scale = Fin q ->
     js_mul (num_of_Z tw) (Fin q) = Fin (Q2Qc (inject_Z tw) * q) ->
     js_mul (num_of_Z th) (Fin q) = Fin (Q2Qc (inject_Z th) * q) ->
     js_mul (Fin sx) (Fin (Q2Qc (inject_Z tw) * q)) = Fin (sx * (Q2Qc (inject_Z tw) * q)) ->
     js_mul (Fin sy) (Fin (Q2Qc (inject_Z th) * q)) = Fin (sy * (Q2Qc (inject_Z th) * q)) ->
     Map.realSize m =
       mkVector (Fin (sx * (Q2Qc (inject_Z tw) * q)))
                (Fin (sy * (Q2Qc (inject_Z th) * q)))).
Proof.
  intros tw th p scale.
  destruct (TiledMap_Ok _ _ _ H) as (Hp & Hs & Ht & Hsc & Hr & _).
  assert (Hscale : Map.scale m = mkVector scale scale).
  { rewrite Hsc, Hp. reflexivity. }
  assert (Hreal : Map.realSize m =
    mkVector (js_mul (x (Map.size m)) (js_mul (num_of_Z tw) (ToNumber host scale)))
             (js_mul (y (Map.size m)) (js_mul (num_of_Z th) (ToNumber host scale)))).
  { rewrite Hr, Hscale, Ht. reflexivity. }
  split; [assumption|]. split; [assumption|].
  split; [intros Ht'; now apply js_or_val_truthy|].
  split; [intros Hf; now apply js_or_val_falsy|].
  split.
  - intros sx sy q rx ry Hsz Hq Hx Hy.
    rewrite Hreal, Hsz, Hq. cbn [x y]. now rewrite Hx, Hy.
  - intros sx sy q Hsz Hq Hx1 Hy1 Hx2 Hy2.
    rewrite Hreal, Hsz, Hq. cbn [x y]. now rewrite Hx1, Hy1, Hx2, Hy2.
Qed.

Lemma add_layers_length descs lyr calls :
  length (add_layers descs lyr calls) = (length calls + length descs)%nat.
Proof.
  revert lyr calls. induction descs as [|d rest IH]; intros lyr calls; cbn.
  - lia.
  - rewrite IH, length_app. cbn. lia.
Qed.

Lemma layer_switch_unknown d lyr :
  Layer.type d <> "tilelayer"%string -> Layer.type d <> "objectgroup"%string ->
  Layer.type d <> "imagelayer"%string ->
  layer_switch d lyr = lyr.
Proof.
  intros H1 H2 H3. unfold layer_switch.
  apply String.eqb_neq in H1, H2, H3. now rewrite H1, H2, H3.
Qed.

(** C1 (what the code does). The layer loop calls [addChild] once for
    every layer descriptor, recognised or not.  For an unrecognised type
    the [switch] leaves [lyr] as it was: [undefined] when the descriptor
    comes first, and otherwise the node built for the layer before it,
    which is then passed to [addChild] a second time. *)
Theorem unknown_layer_addChild :
  (forall host map m,
     TiledMap host map = Ok m ->
     length (Map.addChild_calls m) = length (MapDesc.layers map)) /\
  (exists m,
     TiledMap host0 (mapdesc0 None [] [layer0 "foo"]) = Ok m /\
     Map.addChild_calls m = [None]) /\
  (exists m,
     TiledMap host0 (mapdesc0 None [] [layer0 "tilelayer"; layer0 "foo"]) = Ok m /\
     Map.addChild_calls m =
       [Some (TiledLayer (layer0 "tilelayer")); Some (TiledLayer (layer0 "tilelayer"))]).
Proof.
  split; [|split].
  - intros host map m H.
    destruct (TiledMap_Ok _ _ _ H) as (_ & _ & _ & _ & _ & Hc).
    rewrite Hc, add_layers_length. reflexivity.
  - eexists. split; [vm_compute; reflexivity|reflexivity].
  - eexists. split; [vm_compute; reflexivity|reflexivity].
Qed.

(** ** Runs on concrete inputs *)

(** C2: a tileset whose tiles are wider than its atlas has no tile, and its
    [lastgid] is [firstgid - 1], not [firstgid]. *)
Lemma lastgid_zero_tiles :
  exists ts,
    TiledTileset host0 settingsWide = Ok ts /\
    x (Tileset.numTiles ts) * y (Tileset.numTiles ts) = 0 /\
    Tileset.firstgid ts = 1 /\ Tileset.lastgid ts = 0 /\
    Tileset.lastgid ts <> Tileset.firstgid ts.
Proof.
  eexists. split; [run|]. repeat split. discriminate.
Qed.

Lemma lastgid_invariant_witness :
  exists ts,
    TiledTileset host0 settingsWide = Ok ts /\
    Tileset.lastgid ts =
      Tileset.firstgid ts + x (Tileset.numTiles ts) * y (Tileset.numTiles ts) - 1 /\
    length (Tileset.textures ts) =
      Z.to_nat (x (Tileset.numTiles ts) * y (Tileset.numTiles ts)) /\
    (x (Tileset.numTiles ts) * y (Tileset.numTiles ts) = 0 ->
     Tileset.lastgid ts = Tileset.firstgid ts - 1 /\ Tileset.textures ts = []).
Proof.
  eexists. split; [run|].
  exact (lastgid_invariant host0 settingsWide _ eq_refl).
Defined.

(** C9: with a margin of 200 on an atlas 100 pixels wide the column count
    is -3, the quotient -3.125 rounded towards zero; its floor is -4. *)
Lemma numTiles_margin_outside :
  exists ts,
    TiledTileset (hostGrid 100 100) (settingsGrid (Some 200) None) = Ok ts /\
    Tileset.margin ts = 200 /\ Tileset.spacing ts = 0 /\
    x (Tileset.tileSize ts) = 32 /\
    x (Tileset.numTiles ts) = -3 /\
    (100 - 200) / (32 - 0) = -4 /\
    x (Tileset.numTiles ts) <> (100 - 200) / (32 - 0).
Proof.
  eexists. split; [run|]. repeat split. discriminate.
Qed.

Lemma numTiles_truncated_witness :
  (exists ts,
     TiledTileset (hostGrid 258 130) (settingsGrid (Some 2) (Some 2)) = Ok ts /\
     x (Tileset.numTiles ts) = (258 - 2) / (32 - 2) /\
     y (Tileset.numTiles ts) = (130 - 2) / (32 - 2)) /\
  (exists ts,
     TiledTileset (hostGrid 100 100) (settingsGrid (Some 200) None) = Ok ts /\
     x (Tileset.numTiles ts) = - ((200 - 100) / (32 - 0))).
Proof.
  split.
  - eexists. split; [run|].
    lazymatch goal with
    | |- x (Tileset.numTiles ?ts) = _ /\ _ =>
      destruct (proj1 numTiles_truncated (hostGrid 258 130) (settingsGrid (Some 2) (Some 2))
                  (atlas 258 130) ts eq_refl eq_refl)
        as [(_ & _ & _ & Wx & _) (_ & _ & _ & Wy & _)]
    end.
    split; [apply Wx|apply Wy]; vm_compute; intuition discriminate.
  - eexists. split; [run|].
    lazymatch goal with
    | |- x (Tileset.numTiles ?ts) = _ =>
      destruct (proj1 numTiles_truncated (hostGrid 100 100) (settingsGrid (Some 200) None)
                  (atlas 100 100) ts eq_refl eq_refl)
        as [(_ & _ & _ & _ & Wx) _]
    end.
    apply Wx; vm_compute; intuition discriminate.
Defined.

Lemma getTileset_owner_witness :
  exists map A B,
    TiledMap host0 (mapdesc0 None [settingsA; settingsB] []) = Ok map /\
    Map.tilesets map = [A; B] /\
    disjoint_ranges [A; B] /\
    getTileset map (Some 5) = Some A /\
    getTileset map (Some 1) = Some A /\
    getTileset map (Some 16) = Some A /\
    getTileset map (Some 0x80000010) = Some A /\
    getTileset map (Some 17) = Some B /\
    getTileset map (Some 24) = Some B /\
    getTileset map (Some 0x60000018) = Some B /\
    getTileset map (Some 25) = None.
Proof.
  eexists _, _, _. split; [run|]. split; [reflexivity|].
  lazymatch goal with
  | |- disjoint_ranges [?a; ?b] /\ getTileset ?m _ = _ /\ _ =>
    assert (D : disjoint_ranges [a; b]);
    [ intros [|[|i]] [|[|j]] ta tb Hi Hj Hne v; cbn in Hi, Hj;
      try discriminate; try congruence;
      injection Hi as <-; injection Hj as <-; cbn; lia
    | pose proof (proj1 getTileset_owner m 5 a D) as G;
      pose proof (proj2 (proj2 getTileset_owner) m a b eq_refl eq_refl eq_refl eq_refl eq_refl)
        as W ]
  end.
  split; [exact D|].
  split; [apply G; [left|in_range]|].
  split; [apply (W 1); in_range|].
  split; [apply (W 16); in_range|].
  split; [apply (W 0x80000010); in_range|].
  split; [apply (W 17); in_range|].
  split; [apply (W 24); in_range|].
  split; [apply (W 0x60000018); in_range|].
  apply (W 25). reflexivity.
Defined.

Lemma decode_flag_roundtrip_witness :
  0 <= 5 < 2^29 /\
  rawId (decode (withFlags 5 true false true)) = 5 /\
  d_flippedX (decode (withFlags 5 true false true)) = - 2^31 /\
  d_flippedY (decode (withFlags 5 true false true)) = 0 /\
  d_rotatedCW (decode (withFlags 5 true false true)) = 2^29.
Proof.
  assert (H : 0 <= 5 < 2^29) by (split; [discriminate|reflexivity]).
  split; [exact H|].
  destruct (proj1 decode_flag_roundtrip 5 true false true H) as (H1 & H2 & H3 & H4 & _).
  repeat split; assumption.
Defined.

Lemma getTileProperties_default_witness :
  exists ts,
    TiledTileset host0 settingsA = Ok ts /\
    snd (getTileProperties host0 ts (Some 0x80000003)) = PRef 2 /\
    deref (fst (getTileProperties host0 ts (Some 0x80000003))) (PRef 2) =
      Some (write_flags (- 2^31) 0 0 (default_props host0)) /\
    deref (fst (getTileProperties host0
                  (fst (getTileProperties host0 ts (Some 0x80000003)))
                  (Some 0x40000003))) (PRef 2) =
      Some (write_flags 0 (2^30) 0 (default_props host0)).
Proof.
  eexists. split; [run|].
  lazymatch goal with
  | |- snd (getTileProperties _ ?ts _) = _ /\ _ =>
    assert (H1 : Tileset.firstgid ts <= unflag 0x80000003) by (vm_compute; discriminate);
    assert (H2 : Tileset.tileproperties ts !! (unflag 0x80000003 - Tileset.firstgid ts) = None)
      by reflexivity;
    assert (H3 : unflag 0x40000003 = unflag 0x80000003) by reflexivity;
    destruct (getTileProperties_default host0 ts 0x80000003 0x40000003 H1 H2 H3)
      as (W1 & W2 & W3 & W4 & _)
  end.
  split; [exact W1|]. split; [exact W2|]. exact W4.
Defined.

(** C6: gid 17 is above the range 1..16 of tileset A and not below its
    first gid, yet [getTileTexture] gives no texture for it. *)
Lemma getTileTexture_above_range :
  exists ts,
    TiledTileset host0 settingsA = Ok ts /\
    Tileset.firstgid ts = 1 /\ Tileset.lastgid ts = 16 /\
    unflag 17 = 17 /\
    getTileTexture ts (Some 17) = TUndefined /\
    no_texture (getTileTexture ts (Some 17)) = true /\
    ~ (unflag 17 < Tileset.firstgid ts).
Proof.
  eexists. split; [run|]. repeat split. vm_compute. discriminate.
Qed.

Lemma lower_bound_only_check_witness :
  exists ts,
    TiledTileset host0 settingsA = Ok ts /\
    getTileTexture ts (Some 17) = TUndefined /\
    getTileset_scan [ts] (Some 17) = None /\
    snd (getTileProperties host0 ts (Some 17)) = PRef 16 /\
    deref (fst (getTileProperties host0 ts (Some 17))) (PRef 16) =
      Some (write_flags 0 0 0 (default_props host0)).
Proof.
  eexists. split; [run|].
  lazymatch goal with
  | |- getTileTexture ?ts _ = _ /\ _ =>
    assert (H1 : Tileset.firstgid ts <= unflag 17) by (vm_compute; discriminate);
    assert (H2 : Tileset.lastgid ts < unflag 17) by reflexivity;
    pose proof (proj1 (proj2 (proj2 lower_bound_only_check)) host0 settingsA ts 17
                  eq_refl H1 H2) as W1;
    destruct (proj2 (proj2 (proj2 lower_bound_only_check)) host0
                {| Map.size := mkVector NaN NaN; Map.properties := ∅;
                   Map.scale := mkVector VUndefined VUndefined;
                   Map.tileSize := mkVector 32 32; Map.orientation := "orthogonal";
                   Map.version := 1; Map.backgroundColor := None;
                   Map.tilesets := [ts];
                   Map.scaledTileSize := mkVector NaN NaN;
                   Map.realSize := mkVector NaN NaN; Map.addChild_calls := [] |}
                ts 17 eq_refl H1 H2 eq_refl) as (W2 & W3 & W4)
  end.
  split; [exact W1|]. split; [exact W2|]. split; [exact W3|exact W4].
Defined.

(** C7: after a query with the flipped-X bit the cache entry of tile 1 of
    tileset A holds [flippedX], and it differs from the entry that a query
    without flags leaves. *)
Lemma cache_keeps_flags :
  exists ts,
    TiledTileset host0 settingsA = Ok ts /\
    Tileset.tileproperties (fst (getTileProperties host0 ts (Some 0x80000001))) !! 0 =
      Some (write_flags (- 2^31) 0 0 (default_props host0)) /\
    Tileset.tileproperties (fst (getTileProperties host0 ts (Some 1))) !! 0 =
      Some (write_flags 0 0 0 (default_props host0)) /\
    write_flags (- 2^31) 0 0 (default_props host0) !! "flippedX"%string =
      Some (VNumber (num_of_Z (- 2^31))) /\
    write_flags (- 2^31) 0 0 (default_props host0) <> default_props host0 /\
    write_flags (- 2^31) 0 0 (default_props host0) <>
      write_flags 0 0 0 (default_props host0).
Proof.
  eexists. split; [run|].
  split; [reflexivity|]. split; [reflexivity|]. split; [reflexivity|].
  split; intros E; apply (f_equal (fun o : Obj => o !! "flippedX"%string)) in E;
    vm_compute in E; discriminate.
Qed.

Lemma missing_asset_aborts_witness :
  assetCache host0 !! (Settings.name settingsMissing +:+ "_texture")%string = None /\
  TiledTileset host0 settingsMissing = Throw MissingAssetError /\
  TiledMap host0 (mapdesc0 None [settingsA; settingsMissing; settingsB] [layer0 "tilelayer"])
    = Throw MissingAssetError.
Proof.
  assert (H : TiledTileset host0 settingsMissing = Throw MissingAssetError).
  { apply (proj1 missing_asset_aborts). reflexivity. }
  split; [reflexivity|]. split; [exact H|].
  apply (proj2 (proj2 missing_asset_aborts) host0 _ settingsMissing); [|exact H].
  right. left.
Defined.

(** C10: a scale of 0 is numeric, yet the map is built with scale 1; and
    a scale that is not numeric is kept, not replaced by 1. *)
Lemma scale_default_cases :
  (exists m,
     TiledMap host0 (mapdesc0 (scale_prop "0") [] []) = Ok m /\
     get_prop (Map.properties m) "scale" = VNumber (num_of_Z 0) /\
     x (Map.size m) = num_of_Z 10 /\ y (Map.size m) = num_of_Z 8 /\
     Map.tileSize m = mkVector 32 32 /\
     Map.realSize m = mkVector (num_of_Z 320) (num_of_Z 256) /\
     Map.realSize m <> mkVector (num_of_Z (10 * 32 * 0)) (num_of_Z (8 * 32 * 0))) /\
  (exists m,
     TiledMap host0 (mapdesc0 (scale_prop "big") [] []) = Ok m /\
     get_prop (Map.properties m) "scale" = VString "big" /\
     Map.scale m = mkVector (VString "big") (VString "big") /\
     Map.scale m <> mkVector (VNumber (num_of_Z 1)) (VNumber (num_of_Z 1))).
Proof.
  split.
  - eexists. split; [run|]. repeat split; try run.
    vm_compute. intros E. discriminate.
  - eexists. split; [run|]. repeat split; try run.
    vm_compute. intros E. discriminate.
Qed.

(** Closes a goal [js_mul a b = Fin c] where the product is exact. *)
Ltac exact_product := vm_compute; f_equal; apply Qc_is_canon; reflexivity.

Lemma realSize_scaled_witness :
  (exists m,
     TiledMap host0 (mapdesc0 (scale_prop "0.5") [settingsA] []) = Ok m /\
     Map.scale m = mkVector (VNumber (Fin (Q2Qc (1 # 2)))) (VNumber (Fin (Q2Qc (1 # 2)))) /\
     Map.realSize m =
       mkVector (Fin (Q2Qc (inject_Z 10) * (Q2Qc (inject_Z 32) * Q2Qc (1 # 2))))
                (Fin (Q2Qc (inject_Z 8) * (Q2Qc (inject_Z 32) * Q2Qc (1 # 2))))) /\
  (exists m,
     TiledMap host0 (mapdesc0 (scale_prop "2") [settingsA] []) = Ok m /\
     Map.realSize m =
       mkVector (Fin (Q2Qc (inject_Z 10) * (Q2Qc (inject_Z 32) * Q2Qc (inject_Z 2))))
                (Fin (Q2Qc (inject_Z 8) * (Q2Qc (inject_Z 32) * Q2Qc (inject_Z 2))))) /\
  (exists m,
     TiledMap host0 (mapdesc0 (scale_prop "1") [settingsA] []) = Ok m /\
     Map.realSize m =
       mkVector (Fin (Q2Qc (inject_Z 10) * (Q2Qc (inject_Z 32) * Q2Qc (inject_Z 1))))
                (Fin (Q2Qc (inject_Z 8) * (Q2Qc (inject_Z 32) * Q2Qc (inject_Z 1))))) /\
  (exists m,
     TiledMap host0 (mapdesc3 (scale_prop "0.1")) = Ok m /\
     Map.scale m =
       mkVector (VNumber (Fin (Q2Qc (3602879701896397 # 36028797018963968))))
                (VNumber (Fin (Q2Qc (3602879701896397 # 36028797018963968)))) /\
     Map.realSize m =
       mkVector (Fin (Q2Qc (6755399441055745 # 2251799813685248)))
                (Fin (Q2Qc (3602879701896397 # 140737488355328)))).
Proof.
  split; [|split; [|split]].
  - eexists. split; [run|].
    lazymatch goal with
    | |- Map.scale ?m = _ /\ _ =>
      destruct (realSize_scaled host0 (mapdesc0 (scale_prop "0.5") [settingsA] []) m eq_refl)
        as (_ & W1 & _ & _ & _ & W2)
    end.
    split; [exact W1|].
    apply (W2 (Q2Qc (inject_Z 10)) (Q2Qc (inject_Z 8)) (Q2Qc (1 # 2)));
      [reflexivity|reflexivity|exact_product..].
  - eexists. split; [run|].
    lazymatch goal with
    | |- Map.realSize ?m = _ =>
      destruct (realSize_scaled host0 (mapdesc0 (scale_prop "2") [settingsA] []) m eq_refl)
        as (_ & _ & _ & _ & _ & W2)
    end.
    apply (W2 (Q2Qc (inject_Z 10)) (Q2Qc (inject_Z 8)) (Q2Qc (inject_Z 2)));
      [reflexivity|reflexivity|exact_product..].
  - eexists. split; [run|].
    lazymatch goal with
    | |- Map.realSize ?m = _ =>
      destruct (realSize_scaled host0 (mapdesc0 (scale_prop "1") [settingsA] []) m eq_refl)
        as (_ & _ & _ & _ & _ & W2)
    end.
    apply (W2 (Q2Qc (inject_Z 10)) (Q2Qc (inject_Z 8)) (Q2Qc (inject_Z 1)));
      [reflexivity|reflexivity|exact_product..].
  - eexists. split; [run|].
    lazymatch goal with
    | |- Map.scale ?m = _ /\ _ =>
      destruct (realSize_scaled host0 (mapdesc3 (scale_prop "0.1")) m eq_refl)
        as (_ & W1 & _ & _ & W2 & _)
    end.
    split; [exact W1|].
    apply (W2 (Q2Qc (inject_Z 10)) (Q2Qc (inject_Z 8))
              (Q2Qc (3602879701896397 # 36028797018963968))); reflexivity.
Defined.

(** * Further properties of the tileset and map code *)

(** ** The texture grid *)

Lemma gen_textures_counters base tsz nt sp mg n t acc :
  gen_textures base tsz nt sp mg n t acc =
  acc ++ map (tile_texture base tsz nt sp mg) (counters n t).
Proof.
  revert t acc. induction n as [|n IH]; intros t acc; cbn [gen_textures counters map].
  - now rewrite app_nil_r.
  - rewrite IH, <- app_assoc. reflexivity.
Qed.

Lemma counters_lookup n t (k : nat) :
  (k < n)%nat -> counters n t !! k = Some (t + Z.of_nat k).
Proof.
  revert t k. induction n as [|n IH]; intros t k Hk; [lia|].
  destruct k as [|k]; cbn.
  - f_equal. lia.
  - rewrite IH by lia. f_equal. lia.
Qed.

Lemma counters_elem n t v : v ∈ counters n t -> t <= v < t + Z.of_nat n.
Proof.
  revert t. induction n as [|n IH]; intros t Hv; cbn in Hv.
  - inversion Hv.
  - apply elem_of_cons in Hv as [->|Hv]; [lia|]. apply IH in Hv. lia.
Qed.

Lemma js_trunc_div_range a b : - 2^31 <= js_trunc_div a b < 2^31.
Proof.
  unfold js_trunc_div. destruct (b =? 0); [lia|apply to_int32_range].
Qed.

(** What the constructor stores in [textures]. *)
Lemma TiledTileset_textures host settings ts :
  TiledTileset host settings = Ok ts ->
  Tileset.textures ts =
    map (tile_texture (baseTexture (Tileset.super ts)) (Tileset.tileSize ts)
           (Tileset.numTiles ts) (Tileset.spacing ts) (Tileset.margin ts))
        (counters (Z.to_nat (x (Tileset.numTiles ts) * y (Tileset.numTiles ts))) 0) /\
  - 2^31 <= x (Tileset.numTiles ts) < 2^31 /\
  - 2^31 <= y (Tileset.numTiles ts) < 2^31 /\
  Tileset.lastgid ts =
    Tileset.firstgid ts + x (Tileset.numTiles ts) * y (Tileset.numTiles ts) - 1.
Proof.
  unfold TiledTileset.
  destruct (assetCache host !! _) as [asset|]; [|discriminate].
  intros [= <-]. cbn. rewrite js_num_or_pred, gen_textures_counters. cbn [app].
  repeat split; try apply js_trunc_div_range; try lia.
  do 2 f_equal. lia.
Qed.

(** The loop body's row and column for a counter inside the grid. *)
Lemma tile_texture_grid base tsz nt sp mg t :
  0 < x nt -> - 2^31 <= y nt < 2^31 -> 0 <= t < x nt * y nt ->
  tile_texture base tsz nt sp mg t =
  mkTexture base
    (Some (mkRectangle (mg + (t mod x nt) * (x tsz + sp))
                       (mg + (t / x nt) * (y tsz + sp))
                       (x tsz) (y tsz))).
Proof.
  intros Hx Hy Ht. unfold tile_texture, js_trunc_div.
  destruct (Z.eqb_spec (x nt) 0); [lia|].
  rewrite Z.quot_div_nonneg by lia.
  assert (Hq : 0 <= t / x nt < y nt).
  { split; [apply Z.div_pos; lia|apply Z.div_lt_upper_bound; lia]. }
  rewrite to_int32_small by lia.
  rewrite (Z.mod_eq t (x nt)) by lia.
  do 3 f_equal; lia.
Qed.

Lemma textures_lookup_grid host settings ts t :
  TiledTileset host settings = Ok ts ->
  0 < x (Tileset.numTiles ts) ->
  0 <= t < x (Tileset.numTiles ts) * y (Tileset.numTiles ts) ->
  Tileset.textures ts !! Z.to_nat t =
  Some (mkTexture (baseTexture (Tileset.super ts))
          (Some (mkRectangle
                   (Tileset.margin ts
                    + (t mod x (Tileset.numTiles ts))
                      * (x (Tileset.tileSize ts) + Tileset.spacing ts))
                   (Tileset.margin ts
                    + (t / x (Tileset.numTiles ts))
                      * (y (Tileset.tileSize ts) + Tileset.spacing ts))
                   (x (Tileset.tileSize ts)) (y (Tileset.tileSize ts))))).
Proof.
  intros H Hx Ht.
  destruct (TiledTileset_textures _ _ _ H) as (Htx & _ & Hy & _).
  rewrite Htx, list_lookup_fmap, counters_lookup by lia. cbn [fmap option_fmap option_map].
  f_equal. rewrite Z.add_0_l, Z2Nat.id by lia.
  now apply tile_texture_grid.
Qed.

(** X1. In a constructed tileset with a positive number of columns, the
    texture at local index [t] is the view on the atlas whose frame starts
    at column [t mod numTiles.x] and row [t / numTiles.x], each step being
    the tile size plus the spacing, offset by the margin, and whose size is
    the tile size. *)
Theorem textures_grid host settings ts t
    (H : TiledTileset host settings = Ok ts)
    (Hx : 0 < x (Tileset.numTiles ts))
    (Ht : 0 <= t < x (Tileset.numTiles ts) * y (Tileset.numTiles ts)) :
  Tileset.textures ts !! Z.to_nat t =
  Some (mkTexture (baseTexture (Tileset.super ts))
          (Some (mkRectangle
                   (Tileset.margin ts
                    + (t mod x (Tileset.numTiles ts))
                      * (x (Tileset.tileSize ts) + Tileset.spacing ts))
                   (Tileset.margin ts
                    + (t / x (Tileset.numTiles ts))
                      * (y (Tileset.tileSize ts) + Tileset.spacing ts))
                   (x (Tileset.tileSize ts)) (y (Tileset.tileSize ts))))).
Proof. now apply (textures_lookup_grid host settings). Qed.

(** X2. Every texture of a constructed tileset is a view on the tileset's
    own atlas, with a frame of exactly the tile size; the atlas is never
    copied and no texture is left without a frame. *)
Theorem textures_share_atlas host settings ts tex
    (H : TiledTileset host settings = Ok ts)
    (Hin : tex ∈ Tileset.textures ts) :
  baseTexture tex = baseTexture (Tileset.super ts) /\
  exists r, frame tex = Some r /\
    rect_width r = x (Tileset.tileSize ts) /\ rect_height r = y (Tileset.tileSize ts).
Proof.
  destruct (TiledTileset_textures _ _ _ H) as (Htx & _).
  rewrite Htx in Hin. apply list_elem_of_fmap in Hin as (t & -> & _).
  unfold tile_texture. cbn. eauto.
Qed.

(** What the constructor takes from the asset cache. *)
Lemma TiledTileset_atlas host settings ts :
  TiledTileset host settings = Ok ts ->
  x (Tileset.numTiles ts) =
    js_trunc_div (width (source (baseTexture (Tileset.super ts))) - Tileset.margin ts)
                 (x (Tileset.tileSize ts) - Tileset.spacing ts) /\
  y (Tileset.numTiles ts) =
    js_trunc_div (height (source (baseTexture (Tileset.super ts))) - Tileset.margin ts)
                 (y (Tileset.tileSize ts) - Tileset.spacing ts).
Proof.
  unfold TiledTileset.
  destruct (assetCache host !! _) as [asset|]; [|discriminate].
  intros [= <-]. cbn. split; reflexivity.
Qed.

(** X3. Without spacing, and with the margin inside the atlas, every tile
    frame of a constructed tileset lies inside the atlas: it starts at or
    after the margin and ends at or before the atlas width and height. *)
Theorem frames_inside_atlas host settings ts tex r
    (H : TiledTileset host settings = Ok ts)
    (Hsp : Tileset.spacing ts = 0)
    (Hm : 0 <= Tileset.margin ts)
    (Htw : 0 < x (Tileset.tileSize ts)) (Hth : 0 < y (Tileset.tileSize ts))
    (Hw : 0 <= width (source (baseTexture (Tileset.super ts))) - Tileset.margin ts < 2^31)
    (Hh : 0 <= height (source (baseTexture (Tileset.super ts))) - Tileset.margin ts < 2^31)
    (Hin : tex ∈ Tileset.textures ts) (Hr : frame tex = Some r) :
  Tileset.margin ts <= rect_x r /\
  rect_x r + rect_width r <= width (source (baseTexture (Tileset.super ts))) /\
  Tileset.margin ts <= rect_y r /\
  rect_y r + rect_height r <= height (source (baseTexture (Tileset.super ts))).
Proof.
  destruct (TiledTileset_textures _ _ _ H) as (Htx & Hxr & Hyr & _).
  destruct (TiledTileset_atlas _ _ _ H) as (Hnx & Hny).
  rewrite Hsp, Z.sub_0_r in Hnx, Hny.
  rewrite js_trunc_div_floor in Hnx, Hny by lia.
  rewrite Htx in Hin. apply list_elem_of_fmap in Hin as (t & -> & Ht).
  apply counters_elem in Ht.
  set (w := width (source (baseTexture (Tileset.super ts)))) in *.
  set (h := height (source (baseTexture (Tileset.super ts)))) in *.
  set (nx := x (Tileset.numTiles ts)) in *.
  set (ny := y (Tileset.numTiles ts)) in *.
  set (tw := x (Tileset.tileSize ts)) in *.
  set (th := y (Tileset.tileSize ts)) in *.
  set (m := Tileset.margin ts) in *.
  assert (Hnx0 : 0 <= nx) by (rewrite Hnx; apply Z.div_pos; lia).
  assert (Hny0 : 0 <= ny) by (rewrite Hny; apply Z.div_pos; lia).
  assert (Hn : 0 < nx * ny) by lia.
  rewrite Z2Nat.id in Ht by lia.
  assert (Hxp : 0 < nx) by nia.
  assert (Hyp : 0 < ny) by nia.
  rewrite tile_texture_grid in Hr by (fold nx ny; lia).
  fold nx tw th in Hr. rewrite Hsp in Hr. cbn in Hr. injection Hr as <-. cbn.
  assert (Hcw : nx * tw <= w - m) by (rewrite Hnx, Z.mul_comm; apply Z.mul_div_le; lia).
  assert (Hch : ny * th <= h - m) by (rewrite Hny, Z.mul_comm; apply Z.mul_div_le; lia).
  pose proof (Z.mod_pos_bound t nx Hxp) as Hmod.
  assert (Hq : 0 <= t / nx < ny).
  { split; [apply Z.div_pos; lia|apply Z.div_lt_upper_bound; lia]. }
  repeat split; nia.
Qed.

(** ** Lookups by gid *)

Lemma textures_length host settings ts :
  TiledTileset host settings = Ok ts ->
  length (Tileset.textures ts) =
    Z.to_nat (Tileset.lastgid ts - Tileset.firstgid ts + 1).
Proof.
  intros H. destruct (TiledTileset_textures _ _ _ H) as (Htx & _ & _ & Hl).
  rewrite Htx, length_map.
  assert (Hc : forall n t, length (counters n t) = n).
  { induction n as [|n IH]; intros t; cbn; [reflexivity|now rewrite IH]. }
  rewrite Hc. f_equal. lia.
Qed.

(** X4. On a constructed tileset [getTileTexture] returns a texture
    exactly for the gids that [contains] accepts; for every other gid, and
    for an undefined one, it returns no texture. *)
Theorem getTileTexture_iff_contains host settings ts tileId
    (H : TiledTileset host settings = Ok ts) :
  no_texture (getTileTexture ts tileId) = negb (contains ts tileId).
Proof.
  pose proof (textures_length _ _ _ H) as Hlen.
  destruct tileId as [g|]; [|reflexivity].
  unfold getTileTexture, contains, array_get.
  destruct (Z.ltb_spec (unflag g - Tileset.firstgid ts) 0) as [Hlt|Hge].
  - cbn. destruct (Z.leb_spec (Tileset.firstgid ts) (unflag g)); [lia|reflexivity].
  - destruct (Z.leb_spec (Tileset.firstgid ts) (unflag g)); [|lia]. cbn [andb].
    destruct (Z.leb_spec (unflag g) (Tileset.lastgid ts)) as [Hin|Hout].
    + destruct (lookup_lt_is_Some_2 (Tileset.textures ts)
                  (Z.to_nat (unflag g - Tileset.firstgid ts))) as [tex ->];
        [rewrite Hlen; lia|reflexivity].
    + rewrite lookup_ge_None_2 by (rewrite Hlen; lia). reflexivity.
Qed.

(** X5. For a gid that a constructed tileset with a positive number of
    columns contains, [getTileTexture] returns the tile at local index
    [gid - firstgid] (flags removed): column index modulo [numTiles.x], row
    index divided by [numTiles.x]. *)
Theorem getTileTexture_in_range host settings ts g
    (H : TiledTileset host settings = Ok ts)
    (Hx : 0 < x (Tileset.numTiles ts))
    (Ho : contains ts (Some g) = true) :
  let t := unflag g - Tileset.firstgid ts in
  getTileTexture ts (Some g) =
  TTexture (mkTexture (baseTexture (Tileset.super ts))
              (Some (mkRectangle
                       (Tileset.margin ts
                        + (t mod x (Tileset.numTiles ts))
                          * (x (Tileset.tileSize ts) + Tileset.spacing ts))
                       (Tileset.margin ts
                        + (t / x (Tileset.numTiles ts))
                          * (y (Tileset.tileSize ts) + Tileset.spacing ts))
                       (x (Tileset.tileSize ts)) (y (Tileset.tileSize ts))))).
Proof.
  intros t. apply contains_owns in Ho. unfold owns in Ho.
  destruct (TiledTileset_textures _ _ _ H) as (_ & _ & _ & Hl).
  unfold getTileTexture, array_get. fold t.
  destruct (Z.ltb_spec t 0); [lia|].
  rewrite (textures_lookup_grid host settings) by (assumption || lia).
  reflexivity.
Qed.

Lemma unflag_raw r : 0 <= r < 2^29 -> unflag r = r.
Proof. intros Hr. rewrite unflag_mod. apply Z.mod_small. lia. Qed.

(** X6. The flag bits of a gid take no part in range tests and lookups:
    for a 29-bit raw id with any combination of the three flag bits set on
    top of it, [contains], [getTileTexture], the local index of
    [getTileProperties] and [getTileset] give what they give for the raw id
    alone. *)
Theorem lookups_ignore_flags host ts map r fx fy fr
    (Hr : 0 <= r < 2^29) :
  contains ts (Some (withFlags r fx fy fr)) = contains ts (Some r) /\
  getTileTexture ts (Some (withFlags r fx fy fr)) = getTileTexture ts (Some r) /\
  snd (getTileProperties host ts (Some (withFlags r fx fy fr))) =
    snd (getTileProperties host ts (Some r)) /\
  getTileset map (Some (withFlags r fx fy fr)) = getTileset map (Some r).
Proof.
  pose proof (unflag_withFlags r fx fy fr Hr) as Hu.
  pose proof (unflag_raw r Hr) as Hu0.
  split; [|split; [|split]].
  - unfold contains. now rewrite Hu, Hu0.
  - unfold getTileTexture. now rewrite Hu, Hu0.
  - unfold getTileProperties. rewrite Hu, Hu0.
    destruct (_ <? 0); reflexivity.
  - unfold getTileset. induction (Map.tilesets map) as [|t0 rest IH]; [reflexivity|].
    cbn [getTileset_scan]. rewrite IH. unfold contains. now rewrite Hu, Hu0.
Qed.

(** X7. A tile size equal to the spacing makes the grid division a
    division by zero; the constructor then builds an empty tileset: no
    columns or rows, no textures, and no gid is contained. *)
Theorem zero_divisor_empty_tileset host settings ts
    (H : TiledTileset host settings = Ok ts)
    (Hz : x (Tileset.tileSize ts) = Tileset.spacing ts \/
          y (Tileset.tileSize ts) = Tileset.spacing ts) :
  x (Tileset.numTiles ts) * y (Tileset.numTiles ts) = 0 /\
  Tileset.textures ts = [] /\
  forall tileId, contains ts tileId = false /\ no_texture (getTileTexture ts tileId) = true.
Proof.
  destruct (TiledTileset_textures _ _ _ H) as (Htx & _ & _ & Hl).
  destruct (TiledTileset_atlas _ _ _ H) as (Hnx & Hny).
  assert (Hn : x (Tileset.numTiles ts) * y (Tileset.numTiles ts) = 0).
  { destruct Hz as [Hz|Hz].
    - rewrite Hnx, Hz, Z.sub_diag. unfold js_trunc_div. cbn. lia.
    - rewrite Hny, Hz, Z.sub_diag. unfold js_trunc_div. cbn. lia. }
  split; [assumption|]. split; [now rewrite Htx, Hn|].
  intros tileId.
  assert (Hc : contains ts tileId = false).
  { destruct tileId as [g|]; [|reflexivity]. unfold contains.
    destruct (Z.leb_spec (Tileset.firstgid ts) (unflag g));
      destruct (Z.leb_spec (unflag g) (Tileset.lastgid ts)); try reflexivity; lia. }
  split; [assumption|].
  pose proof (textures_length _ _ _ H) as Hlen.
  destruct tileId as [g|]; [|reflexivity].
  unfold getTileTexture, array_get.
  destruct (_ <? 0); [reflexivity|].
  rewrite lookup_ge_None_2; [reflexivity|]. rewrite Hlen. lia.
Qed.

(** ** The property cache under repeated queries *)

Lemma set_tileproperties_twice ts a b :
  Tileset.set_tileproperties (Tileset.set_tileproperties ts a) b =
  Tileset.set_tileproperties ts b.
Proof. reflexivity. Qed.

(** X8. The last query of a tile decides its cached record: querying a
    tile with one gid and then with another gid of the same raw id leaves
    the tileset, and returns the record, exactly as the second query alone
    would. *)
Theorem getTileProperties_last_query host ts g g'
    (Hsame : unflag g = unflag g') :
  getTileProperties host (fst (getTileProperties host ts (Some g))) (Some g') =
  getTileProperties host ts (Some g').
Proof.
  destruct (Z.lt_ge_cases (unflag g) (Tileset.firstgid ts)) as [Hlt|Hge].
  - now rewrite (getTileProperties_null host ts g Hlt).
  - rewrite (getTileProperties_record host ts g Hge). cbn [fst].
    rewrite !getTileProperties_record by (cbn; lia).
    cbn [Tileset.set_tileproperties Tileset.tileproperties Tileset.firstgid].
    rewrite Hsame, lookup_insert_eq, insert_insert_eq. cbn [default].
    unfold id. now rewrite write_flags_twice.
Qed.

(** X9. Queries of different tiles do not disturb each other: two
    queries whose raw ids differ leave the same tileset in either order. *)
Theorem getTileProperties_commute host ts g h
    (Hne : unflag g <> unflag h) :
  fst (getTileProperties host (fst (getTileProperties host ts (Some g))) (Some h)) =
  fst (getTileProperties host (fst (getTileProperties host ts (Some h))) (Some g)).
Proof.
  destruct (Z.lt_ge_cases (unflag g) (Tileset.firstgid ts)) as [Hg|Hg];
    destruct (Z.lt_ge_cases (unflag h) (Tileset.firstgid ts)) as [Hh|Hh].
  - rewrite (getTileProperties_null host ts g Hg), (getTileProperties_null host ts h Hh).
    cbn [fst].
    now rewrite (getTileProperties_null host ts g Hg), (getTileProperties_null host ts h Hh).
  - rewrite (getTileProperties_null host ts g Hg). cbn [fst].
    rewrite (getTileProperties_record host ts h Hh). cbn [fst].
    now rewrite getTileProperties_null by (cbn; lia).
  - rewrite (getTileProperties_null host ts h Hh). cbn [fst].
    rewrite (getTileProperties_record host ts g Hg). cbn [fst].
    now rewrite getTileProperties_null by (cbn; lia).
  - rewrite (getTileProperties_record host ts g Hg),
      (getTileProperties_record host ts h Hh). cbn [fst].
    rewrite !getTileProperties_record by (cbn; lia).
    cbn [fst Tileset.set_tileproperties Tileset.tileproperties Tileset.firstgid].
    rewrite !lookup_insert_ne by lia.
    f_equal. apply insert_insert_ne. lia.
Qed.

(** ** The tileset scan *)

Lemma getTileset_scan_first tilesets tileId ts :
  getTileset_scan tilesets tileId = Some ts <->
  exists i : nat,
    tilesets !! i = Some ts /\ contains ts tileId = true /\
    forall (j : nat) tj, (j < i)%nat -> tilesets !! j = Some tj -> contains tj tileId = false.
Proof.
  induction tilesets as [|t0 rest IH]; cbn [getTileset_scan].
  - split; [discriminate|]. intros (i & Hi & _). now rewrite lookup_nil in Hi.
  - destruct (contains t0 tileId) eqn:Ec.
    + split.
      * intros [= <-]. exists 0%nat. split; [reflexivity|]. split; [assumption|].
        intros j tj Hj. lia.
      * intros (i & Hi & Hc & Hfirst). destruct i as [|i].
        -- cbn in Hi. congruence.
        -- specialize (Hfirst 0%nat t0 ltac:(lia) eq_refl). congruence.
    + rewrite IH. split.
      * intros (i & Hi & Hc & Hfirst). exists (S i). split; [exact Hi|].
        split; [assumption|]. intros [|j] tj Hj Hl.
        -- cbn in Hl. congruence.
        -- apply (Hfirst j); [lia|exact Hl].
      * intros (i & Hi & Hc & Hfirst). destruct i as [|i].
        -- cbn in Hi. congruence.
        -- exists i. split; [exact Hi|]. split; [assumption|].
           intros j tj Hj Hl. apply (Hfirst (S j)); [lia|exact Hl].
Qed.

Lemma getTileset_scan_None tilesets tileId :
  getTileset_scan tilesets tileId = None <->
  forall ts, ts ∈ tilesets -> contains ts tileId = false.
Proof.
  induction tilesets as [|t0 rest IH]; cbn [getTileset_scan].
  - split; [|reflexivity]. intros _ ts Hin. inversion Hin.
  - destruct (contains t0 tileId) eqn:Ec.
    + split; [discriminate|]. intros Hall. rewrite Hall in Ec; [discriminate|left].
    + rewrite IH. split.
      * intros Hall ts Hin. apply elem_of_cons in Hin as [->|Hin]; auto.
      * intros Hall ts Hin. apply Hall. now right.
Qed.

(** X10. Whatever the ranges are, overlapping or not, [getTileset]
    returns the first tileset in map order that contains the gid, and it
    returns nothing exactly when no tileset contains it; an undefined gid
    is never found. *)
Theorem getTileset_first_match map tileId :
  (forall ts,
     getTileset map tileId = Some ts <->
     exists i : nat,
       Map.tilesets map !! i = Some ts /\ contains ts tileId = true /\
       forall (j : nat) tj, (j < i)%nat -> Map.tilesets map !! j = Some tj ->
                            contains tj tileId = false) /\
  (getTileset map tileId = None <->
   forall ts, ts ∈ Map.tilesets map -> contains ts tileId = false) /\
  getTileset map None = None.
Proof.
  split; [|split].
  - intros ts. apply getTileset_scan_first.
  - apply getTileset_scan_None.
  - apply getTileset_scan_None. reflexivity.
Qed.

Lemma consecutive_ordered tilesets :
  consecutive tilesets ->
  forall (j i : nat) a b, (i < j)%nat ->
    tilesets !! i = Some a -> tilesets !! j = Some b ->
    Tileset.lastgid a < Tileset.firstgid b.
Proof.
  intros [Hne Hstep] j. induction j as [|j IH]; intros i a b Hij Ha Hb; [lia|].
  destruct (decide (i = j)) as [->|Hneq]; [now apply (Hstep j)|].
  destruct (lookup_lt_is_Some_2 tilesets j) as [c Hc].
  { apply lookup_lt_Some in Hb. lia. }
  pose proof (IH i a c ltac:(lia) Ha Hc) as H1.
  pose proof (Hstep j c b Hc Hb) as H2.
  pose proof (Hne c (proj2 (list_elem_of_lookup _ _) (ex_intro _ j Hc))) as H3.
  lia.
Qed.

Lemma consecutive_disjoint tilesets :
  consecutive tilesets -> disjoint_ranges tilesets.
Proof.
  intros Hc i j a b Ha Hb Hne v [Hva Hvb].
  destruct (Nat.lt_total i j) as [Hlt|[Heq|Hgt]]; [|contradiction|].
  - pose proof (consecutive_ordered _ Hc j i a b Hlt Ha Hb). lia.
  - pose proof (consecutive_ordered _ Hc i j b a Hgt Hb Ha). lia.
Qed.

(** X11. When the tilesets of a map follow one another (each first gid
    above the last gid of the tileset before, and no tileset with a
    negative gid count), [getTileset] returns, for a gid in the range of
    one of them, exactly that tileset. *)
Theorem getTileset_consecutive map ts g
    (Hc : consecutive (Map.tilesets map))
    (Hin : ts ∈ Map.tilesets map)
    (Ho : owns ts g) :
  getTileset map (Some g) = Some ts.
Proof.
  apply getTileset_scan_owner; [now apply consecutive_disjoint|assumption..].
Qed.

(** ** Map construction *)

Lemma build_tilesets_Ok host descs acc l :
  build_tilesets host descs acc = Ok l <->
  exists built, l = acc ++ built /\
    Forall2 (fun s ts => TiledTileset host s = Ok ts) descs built.
Proof.
  revert acc. induction descs as [|d rest IH]; intros acc; cbn [build_tilesets].
  - split.
    + intros [= <-]. exists []. split; [now rewrite app_nil_r|constructor].
    + intros (built & -> & HF). inversion HF. now rewrite app_nil_r.
  - unfold mbind, result_bind.
    destruct (TiledTileset host d) as [ts|e] eqn:Ed.
    + rewrite IH. split.
      * intros (built & -> & HF). exists (ts :: built).
        split; [now rewrite <- app_assoc|now constructor].
      * intros (built & -> & HF). inversion HF as [|? ts' ? built' Hd HF']; subst.
        rewrite Ed in Hd. injection Hd as <-.
        exists built'. split; [now rewrite <- app_assoc|assumption].
    + split; [discriminate|].
      intros (built & _ & HF). inversion HF as [|? ts' ? built' Hd HF']; subst.
      congruence.
Qed.

Lemma TiledMap_tilesets host map m :
  TiledMap host map = Ok m ->
  build_tilesets host (MapDesc.tilesets map) [] = Ok (Map.tilesets m).
Proof.
  unfold TiledMap, mbind, result_bind.
  destruct (build_tilesets host (MapDesc.tilesets map) []); [|discriminate].
  now intros [= <-].
Qed.

(** X12. A map that is built holds one tileset per tileset descriptor
    of its description, in the order of the description, each the one the
    tileset constructor builds from that descriptor; so the atlas of every
    descriptor was in the asset cache. *)
Theorem TiledMap_builds_all_tilesets host map m
    (H : TiledMap host map = Ok m) :
  Forall2 (fun s ts => TiledTileset host s = Ok ts)
    (MapDesc.tilesets map) (Map.tilesets m) /\
  length (Map.tilesets m) = length (MapDesc.tilesets map) /\
  (forall s, s ∈ MapDesc.tilesets map ->
     is_Some (assetCache host !! (Settings.name s +:+ "_texture")%string)).
Proof.
  assert (HF : Forall2 (fun s ts => TiledTileset host s = Ok ts)
                 (MapDesc.tilesets map) (Map.tilesets m)).
  { apply TiledMap_tilesets in H.
    apply build_tilesets_Ok in H as (built & -> & HF). exact HF. }
  split; [exact HF|]. split; [symmetry; exact (Forall2_length _ _ _ HF)|].
  intros s Hin. apply list_elem_of_lookup in Hin as [i Hi].
  destruct (Forall2_lookup_l _ _ _ _ _ HF Hi) as (ts & _ & Hts).
  destruct (TiledTileset_Ok _ _ _ Hts) as (a & Ha & _). eauto.
Qed.

Lemma add_layers_app descs lyr calls :
  add_layers descs lyr calls = calls ++ add_layers descs lyr [].
Proof.
  revert lyr calls. induction descs as [|d rest IH]; intros lyr calls; cbn [add_layers].
  - now rewrite app_nil_r.
  - rewrite IH, (IH _ ([] ++ _)), <- app_assoc. reflexivity.
Qed.

Lemma layer_switch_recognised d lyr :
  recognised d = true ->
  layer_switch d lyr = layer_switch d None /\ is_Some (layer_switch d None).
Proof.
  unfold recognised, layer_switch.
  destruct (String.eqb (Layer.type d) "tilelayer"); [eauto|].
  destruct (String.eqb (Layer.type d) "objectgroup"); [eauto|].
  destruct (String.eqb (Layer.type d) "imagelayer"); [eauto|discriminate].
Qed.

Lemma add_layers_recognised descs lyr (i : nat) d :
  descs !! i = Some d -> recognised d = true ->
  add_layers descs lyr [] !! i = Some (layer_switch d None).
Proof.
  revert lyr i. induction descs as [|d0 rest IH]; intros lyr i Hi Hr; [discriminate|].
  cbn [add_layers]. rewrite add_layers_app. destruct i as [|i].
  - cbn in Hi. injection Hi as ->. cbn.
    now rewrite (proj1 (layer_switch_recognised d lyr Hr)).
  - cbn in Hi |- *. now apply IH.
Qed.

(** X13. A layer descriptor of a recognised type gets a node of its own,
    at its own position: the call of [addChild] for the i-th descriptor
    passes the tile layer, object group or image layer built from that
    descriptor, whatever the other descriptors are. *)
Theorem recognised_layer_node host map m (i : nat) d
    (H : TiledMap host map = Ok m)
    (Hi : MapDesc.layers map !! i = Some d) :
  (Layer.type d = "tilelayer"%string ->
     Map.addChild_calls m !! i = Some (Some (TiledLayer d))) /\
  (Layer.type d = "objectgroup"%string ->
     Map.addChild_calls m !! i = Some (Some (TiledObjectGroup d))) /\
  (Layer.type d = "imagelayer"%string ->
     Map.addChild_calls m !! i = Some (Some (ImageLayer d))).
Proof.
  destruct (TiledMap_Ok _ _ _ H) as (_ & _ & _ & _ & _ & Hc). rewrite Hc.
  repeat split; intros Ht;
    rewrite (add_layers_recognised _ None i d Hi) by (unfold recognised; now rewrite Ht);
    unfold layer_switch; now rewrite Ht.
Qed.

(** ** Forwarding to children, and events *)

Lemma forward_loop_filter children ty f (n i : nat) calls :
  (i + n = length children)%nat ->
  forward_loop children ty f n i calls =
  calls ++ map f (filter (fun o => String.eqb (Child.type o) ty = true) (drop i children)).
Proof.
  revert i calls. induction n as [|n IH]; intros i calls Hlen; cbn [forward_loop].
  - rewrite drop_ge by lia. cbn. now rewrite app_nil_r.
  - destruct (lookup_lt_is_Some_2 children i ltac:(lia)) as [o Ho]. rewrite Ho.
    rewrite (drop_S _ _ _ Ho), filter_cons.
    destruct (String.eqb (Child.type o) ty) eqn:E.
    + rewrite decide_True by reflexivity. rewrite IH by lia.
      cbn. now rewrite <- app_assoc.
    + rewrite decide_False by discriminate. now rewrite IH by lia.
Qed.

(** X14. [resize] calls [resize(width, height)] on the children whose
    type is 'tilelayer' and on no other child; [spawnObjects] and
    [despawnObjects] call [spawn] and [despawn] on the children whose type is
    'objectgroup' and on no other; each goes through the children once, in
    order. *)
Theorem forwarding_targets children width height :
  resize children width height =
    map (fun o => CallResize o width height)
      (filter (fun o => String.eqb (Child.type o) "tilelayer" = true) children) /\
  spawnObjects children =
    map CallSpawn
      (filter (fun o => String.eqb (Child.type o) "objectgroup" = true) children) /\
  despawnObjects children =
    map CallDespawn
      (filter (fun o => String.eqb (Child.type o) "objectgroup" = true) children).
Proof.
  unfold resize, spawnObjects, despawnObjects.
  rewrite !forward_loop_filter by lia. now rewrite drop_0.
Qed.

(** X15. Tile events and object events are relayed under separate
    names: the name emitted for a tile event is never the name emitted for
    an object event, and two relayed events are the same only if they have
    the same event name, subject and data. *)
Theorem event_namespaces a b t o d d' :
  onTileEvent a t d <> onObjectEvent b o d' /\
  (onTileEvent a t d = onTileEvent b o d' -> a = b /\ t = o /\ d = d') /\
  (onObjectEvent a t d = onObjectEvent b o d' -> a = b /\ t = o /\ d = d').
Proof.
  unfold onTileEvent, onObjectEvent. split; [|split].
  - intros E. injection E as Hn _ _. cbv in Hn. discriminate Hn.
  - intros [= Hn -> ->]. apply (inj (String.app _)) in Hn. auto.
  - intros [= Hn -> ->]. apply (inj (String.app _)) in Hn. auto.
Qed.

(** ** The fade effect *)

Lemma default_duration_positive : (Q2Qc 0 < Q2Qc (inject_Z 1000))%Qc.
Proof. reflexivity. Qed.

Lemma default_goal_nonzero : Q2Qc (inject_Z 1) <> Q2Qc 0.
Proof. intros E. apply (f_equal this) in E. discriminate E. Qed.

(** X16. Called with arguments that are each undefined, null, a number
    or a function, [start] always leaves a positive duration and a goal
    that is a nonzero number, and shows the overlay at alpha 0.  When none
    of the first three arguments is a function, the duration is the given
    one if that is a positive number and 1000 otherwise, the goal is the
    given alpha if that is a nonzero number and 1 otherwise, and the fill
    colour is the given one if that is a number and white otherwise. *)
Theorem Fade_start_invariant c d a f :
  (exists q, duration (Fade_start c d a f) = Fin q /\ (Q2Qc 0 < q)%Qc) /\
  (exists g, goal (Fade_start c d a f) = Fin g /\ g <> Q2Qc 0) /\
  gfx_visible (Fade_start c d a f) = true /\
  gfx_alpha (Fade_start c d a f) = num_of_Z 0 /\
  (is_function c = false -> is_function d = false -> is_function a = false ->
   (forall q, d = ANumber (Fin q) -> (Q2Qc 0 < q)%Qc ->
      duration (Fade_start c d a f) = Fin q) /\
   ((forall q, d = ANumber (Fin q) -> ~ (Q2Qc 0 < q)%Qc) ->
      duration (Fade_start c d a f) = num_of_Z 1000) /\
   (forall g, a = ANumber (Fin g) -> g <> Q2Qc 0 ->
      goal (Fade_start c d a f) = Fin g) /\
   ((forall g, a = ANumber (Fin g) -> g = Q2Qc 0) ->
      goal (Fade_start c d a f) = num_of_Z 1) /\
   (forall n, c = ANumber n -> fill (Fade_start c d a f) = n) /\
   ((forall n, c <> ANumber n) -> fill (Fade_start c d a f) = num_of_Z 0xFFFFFF)).
Proof.
  pose proof default_duration_positive as Hd. pose proof default_goal_nonzero as Hg.
  split; [|split; [|split; [|split]]].
  - unfold Fade_start.
    destruct c as [| |[|qc]|fc], d as [| |[|qd]|fd], a as [| |[|qa]|fa];
      cbn -[Q2Qc inject_Z]; repeat case_bool_decide; unfold num_of_Z; eauto.
  - unfold Fade_start.
    destruct c as [| |[|qc]|fc], d as [| |[|qd]|fd], a as [| |[|qa]|fa];
      cbn -[Q2Qc inject_Z]; repeat case_bool_decide; unfold num_of_Z; eauto.
  - unfold Fade_start.
    destruct c as [| |[|qc]|fc], d as [| |[|qd]|fd], a as [| |[|qa]|fa]; reflexivity.
  - unfold Fade_start.
    destruct c as [| |[|qc]|fc], d as [| |[|qd]|fd], a as [| |[|qa]|fa]; reflexivity.
  - intros Hc Hdf Ha. unfold Fade_start. rewrite Ha, Hdf, Hc. cbn [cb goal duration fill].
    repeat split.
    + intros q -> Hq. now rewrite bool_decide_eq_true_2.
    + intros Hall. destruct d as [| |[|q]|fd]; try reflexivity.
      rewrite bool_decide_eq_false_2; [reflexivity|]. now apply Hall.
    + intros g -> Hne. now rewrite bool_decide_eq_false_2.
    + intros Hall. destruct a as [| |[|g]|fa]; try reflexivity.
      rewrite bool_decide_eq_true_2; [reflexivity|]. now apply Hall.
    + now intros n ->.
    + intros Hall. destruct c as [| |n|fc]; try reflexivity.
      now destruct (Hall n).
Qed.

(** X17. Which argument [start] keeps as the callback when a function is
    passed early.  A function in the first place, or in the second, is
    kept as the callback, with the default goal 1 and duration 1000 (and
    white when it came first).  A function in the third place is not
    kept: the callback is then whatever was passed as the duration.
    With no function in the first three places the fourth argument is the
    callback. *)
Theorem Fade_start_callback :
  (forall fn d a f,
     let s := Fade_start (AFunction fn) d a f in
     cb s = AFunction fn /\ goal s = num_of_Z 1 /\ duration s = num_of_Z 1000 /\
     fill s = num_of_Z 0xFFFFFF) /\
  (forall c fn a f, is_function c = false ->
     let s := Fade_start c (AFunction fn) a f in
     cb s = AFunction fn /\ goal s = num_of_Z 1 /\ duration s = num_of_Z 1000) /\
  (forall c d fn f, is_function c = false -> is_function d = false ->
     let s := Fade_start c d (AFunction fn) f in
     cb s = d /\ goal s = num_of_Z 1) /\
  (forall c d a f,
     is_function c = false -> is_function d = false -> is_function a = false ->
     cb (Fade_start c d a f) = f).
Proof.
  unfold Fade_start. repeat split.
  all: try (destruct d as [| |[|qd]|fd], a as [| |[|qa]|fa]; reflexivity).
  all: try (destruct c as [| |[|qc]|fc], a as [| |[|qa]|fa]; (discriminate || reflexivity)).
  all: try (destruct c as [| |[|qc]|fc], d as [| |[|qd]|fd];
            (discriminate || (cbn; repeat case_bool_decide; reflexivity))).
  destruct c as [| |[|qc]|fc], d as [| |[|qd]|fd], a as [| |[|qa]|fa];
    (discriminate || (cbn; repeat case_bool_decide; reflexivity)).
Qed.

(** X18. Raw id 0, the empty cell, belongs to no tileset whose first gid
    is at least 1: with any flag bits, [contains] rejects it,
    [getTileTexture] and [getTileProperties] return [null] and change
    nothing, and [getTileset] finds nothing in a map of such tilesets. *)
Theorem empty_cell_not_found host map ts g
    (Hg : unflag g = 0)
    (Hf : 1 <= Tileset.firstgid ts) :
  contains ts (Some g) = false /\
  getTileTexture ts (Some g) = TNull /\
  getTileProperties host ts (Some g) = (ts, PNull) /\
  ((forall t, t ∈ Map.tilesets map -> 1 <= Tileset.firstgid t) ->
   getTileset map (Some g) = None).
Proof.
  assert (Hc : forall t, 1 <= Tileset.firstgid t -> contains t (Some g) = false).
  { intros t Ht. unfold contains. rewrite Hg.
    destruct (Z.leb_spec (Tileset.firstgid t) 0); [lia|reflexivity]. }
  split; [now apply Hc|]. split; [|split].
  - unfold getTileTexture. rewrite Hg.
    destruct (Z.ltb_spec (0 - Tileset.firstgid ts) 0); [reflexivity|lia].
  - apply getTileProperties_null. lia.
  - intros Hall. apply getTileset_scan_None. intros t Hin. apply Hc. now apply Hall.
Qed.

(** ** Runs of the further properties on concrete inputs *)

(** Takes the tileset [ts] out of a goal [... ts ... /\ _] left by a
    constructor run, and hands it to [k]. *)
Ltac with_built k :=
  lazymatch goal with
  | |- context [Tileset.textures ?ts] => k ts
  | |- context [contains ?ts _] => k ts
  | |- context [getTileTexture ?ts _] => k ts
  | |- context [getTileProperties _ ?ts _] => k ts
  end.

Lemma textures_grid_witness :
  exists ts,
    TiledTileset (hostGrid 258 130) (settingsGrid (Some 2) (Some 2)) = Ok ts /\
    Tileset.textures ts !! Z.to_nat 9 =
      Some (mkTexture (baseTexture (atlas 258 130)) (Some (mkRectangle 36 36 32 32))).
Proof.
  eexists. split; [run|].
  with_built ltac:(fun ts =>
    assert (Ht : 0 <= 9 < x (Tileset.numTiles ts) * y (Tileset.numTiles ts))
      by (vm_compute; split; [discriminate|reflexivity]);
    exact (textures_grid (hostGrid 258 130) (settingsGrid (Some 2) (Some 2)) ts 9
             eq_refl eq_refl Ht)).
Defined.

Lemma textures_share_atlas_witness :
  exists ts tex,
    TiledTileset host0 settingsB = Ok ts /\
    Tileset.textures ts !! 7%nat = Some tex /\
    baseTexture tex = baseTexture (atlas 128 64) /\
    exists r, frame tex = Some r /\ rect_width r = 32 /\ rect_height r = 32.
Proof.
  eexists _, _. split; [run|].
  with_built ltac:(fun ts => pose (built := ts)).
  split; [reflexivity|].
  lazymatch goal with
  | |- baseTexture ?tex = _ /\ _ =>
    exact (textures_share_atlas host0 settingsB built tex eq_refl
             (list_elem_of_lookup_2 (Tileset.textures built) 7 tex eq_refl))
  end.
Defined.

Lemma frames_inside_atlas_witness :
  exists ts tex r,
    TiledTileset host0 settingsB = Ok ts /\
    Tileset.textures ts !! 7%nat = Some tex /\ frame tex = Some r /\
    0 <= rect_x r /\ rect_x r + rect_width r <= 128 /\
    0 <= rect_y r /\ rect_y r + rect_height r <= 64.
Proof.
  eexists _, _, _. split; [run|].
  with_built ltac:(fun ts => pose (built := ts)).
  split; [reflexivity|]. split; [reflexivity|].
  lazymatch goal with
  | |- _ <= rect_x ?r /\ _ =>
    refine (frames_inside_atlas host0 settingsB built _ r eq_refl eq_refl _ _ _ _ _
              (list_elem_of_lookup_2 (Tileset.textures built) 7 _ eq_refl) eq_refl);
    vm_compute; try reflexivity; try discriminate; split; (discriminate || reflexivity)
  end.
Defined.

Lemma getTileTexture_iff_contains_witness :
  exists ts,
    TiledTileset host0 settingsA = Ok ts /\
    no_texture (getTileTexture ts (Some 17)) = negb (contains ts (Some 17)) /\
    no_texture (getTileTexture ts (Some 16)) = negb (contains ts (Some 16)).
Proof.
  eexists. split; [run|].
  with_built ltac:(fun ts =>
    exact (conj (getTileTexture_iff_contains host0 settingsA ts (Some 17) eq_refl)
                (getTileTexture_iff_contains host0 settingsA ts (Some 16) eq_refl))).
Defined.

Lemma getTileTexture_in_range_witness :
  exists ts,
    TiledTileset host0 settingsA = Ok ts /\
    getTileTexture ts (Some 0x80000006) =
      TTexture (mkTexture (baseTexture (atlas 128 128)) (Some (mkRectangle 32 32 32 32))).
Proof.
  eexists. split; [run|].
  with_built ltac:(fun ts =>
    exact (getTileTexture_in_range host0 settingsA ts 0x80000006 eq_refl eq_refl eq_refl)).
Defined.

Lemma zero_divisor_empty_tileset_witness :
  exists ts,
    TiledTileset (hostGrid 256 256) (settingsGrid None (Some 32)) = Ok ts /\
    x (Tileset.tileSize ts) = Tileset.spacing ts /\
    x (Tileset.numTiles ts) * y (Tileset.numTiles ts) = 0 /\
    Tileset.textures ts = [] /\
    contains ts (Some 1) = false.
Proof.
  eexists. split; [run|]. split; [reflexivity|].
  with_built ltac:(fun ts =>
    destruct (zero_divisor_empty_tileset (hostGrid 256 256) (settingsGrid None (Some 32))
                ts eq_refl (or_introl eq_refl)) as (W1 & W2 & W3);
    exact (conj W1 (conj W2 (proj1 (W3 (Some 1)))))).
Defined.

Lemma getTileProperties_last_query_witness :
  exists ts,
    TiledTileset host0 settingsA = Ok ts /\
    getTileProperties host0 (fst (getTileProperties host0 ts (Some 0x80000001))) (Some 1) =
    getTileProperties host0 ts (Some 1).
Proof.
  eexists. split; [run|].
  with_built ltac:(fun ts =>
    exact (getTileProperties_last_query host0 ts 0x80000001 1 eq_refl)).
Defined.

Lemma getTileProperties_commute_witness :
  exists ts,
    TiledTileset host0 settingsA = Ok ts /\
    fst (getTileProperties host0 (fst (getTileProperties host0 ts (Some 1))) (Some 2)) =
    fst (getTileProperties host0 (fst (getTileProperties host0 ts (Some 2))) (Some 1)).
Proof.
  eexists. split; [run|].
  with_built ltac:(fun ts =>
    assert (Hne : unflag 1 <> unflag 2) by (vm_compute; discriminate);
    exact (getTileProperties_commute host0 ts 1 2 Hne)).
Defined.

Lemma getTileset_consecutive_witness :
  exists map A B,
    TiledMap host0 (mapdesc0 None [settingsA; settingsB] []) = Ok map /\
    Map.tilesets map = [A; B] /\
    consecutive [A; B] /\
    getTileset map (Some 0x40000014) = Some B.
Proof.
  eexists _, _, _. split; [run|]. split; [reflexivity|].
  lazymatch goal with
  | |- consecutive [?a; ?b] /\ getTileset ?m _ = _ =>
    assert (C : consecutive [a; b]);
    [ split;
      [ intros ts Hin; apply elem_of_cons in Hin as [->|Hin];
        [vm_compute; discriminate|];
        apply elem_of_cons in Hin as [->|Hin]; [vm_compute; discriminate|inversion Hin]
      | intros [|[|i]] ta tb Hi Hj; cbn in Hi, Hj; try discriminate;
        injection Hi as <-; injection Hj as <-; reflexivity ]
    | split; [exact C|];
      apply (getTileset_consecutive m b 0x40000014 C);
      [right; left|vm_compute; split; discriminate] ]
  end.
Defined.

Lemma TiledMap_builds_all_tilesets_witness :
  exists m A B,
    TiledMap host0 (mapdesc0 None [settingsA; settingsB] [layer0 "tilelayer"]) = Ok m /\
    Map.tilesets m = [A; B] /\
    TiledTileset host0 settingsA = Ok A /\ TiledTileset host0 settingsB = Ok B.
Proof.
  eexists _, _, _. split; [run|]. split; [reflexivity|].
  lazymatch goal with
  | |- TiledTileset _ _ = Ok ?a /\ _ =>
    pose proof (proj1 (TiledMap_builds_all_tilesets host0
                  (mapdesc0 None [settingsA; settingsB] [layer0 "tilelayer"]) _ eq_refl)) as W
  end.
  apply Forall2_cons_1 in W as [W1 W]. apply Forall2_cons_1 in W as [W2 _].
  exact (conj W1 W2).
Defined.

Lemma recognised_layer_node_witness :
  exists m,
    TiledMap host0
      (mapdesc0 None [] [layer0 "tilelayer"; layer0 "foo"; layer0 "objectgroup"]) = Ok m /\
    Map.addChild_calls m !! 2%nat = Some (Some (TiledObjectGroup (layer0 "objectgroup"))).
Proof.
  eexists. split; [run|].
  lazymatch goal with
  | |- Map.addChild_calls ?m !! _ = _ =>
    exact (proj1 (proj2 (recognised_layer_node host0
             (mapdesc0 None [] [layer0 "tilelayer"; layer0 "foo"; layer0 "objectgroup"])
             m 2 (layer0 "objectgroup") eq_refl eq_refl)) eq_refl)
  end.
Defined.

Lemma Fade_start_callback_witness :
  cb (Fade_start (ANumber (num_of_Z 0)) (ANumber (num_of_Z 500)) (AFunction 7%nat) AUndefined) =
    ANumber (num_of_Z 500) /\
  cb (Fade_start (ANumber (num_of_Z 0)) (AFunction 7%nat) AUndefined AUndefined) = AFunction 7%nat /\
  cb (Fade_start (ANumber (num_of_Z 0)) (ANumber (num_of_Z 500)) ANull (AFunction 7%nat)) =
    AFunction 7%nat.
Proof.
  split; [|split].
  - exact (proj1 (proj1 (proj2 (proj2 Fade_start_callback)) (ANumber (num_of_Z 0))
             (ANumber (num_of_Z 500)) 7%nat AUndefined eq_refl eq_refl)).
  - exact (proj1 (proj1 (proj2 Fade_start_callback) (ANumber (num_of_Z 0)) 7%nat
             AUndefined AUndefined eq_refl)).
  - exact (proj2 (proj2 (proj2 Fade_start_callback)) (ANumber (num_of_Z 0))
             (ANumber (num_of_Z 500)) ANull (AFunction 7%nat) eq_refl eq_refl eq_refl).
Defined.

Lemma empty_cell_not_found_witness :
  exists ts,
    TiledTileset host0 settingsA = Ok ts /\
    contains ts (Some 0x80000000) = false /\
    getTileTexture ts (Some 0x80000000) = TNull /\
    getTileProperties host0 ts (Some 0x80000000) = (ts, PNull).
Proof.
  eexists. split; [run|].
  with_built ltac:(fun ts =>
    assert (Hf : 1 <= Tileset.firstgid ts) by (vm_compute; discriminate);
    destruct (empty_cell_not_found host0
                {| Map.size := mkVector NaN NaN; Map.properties := ∅;
                   Map.scale := mkVector VUndefined VUndefined;
                   Map.tileSize := mkVector 32 32; Map.orientation := "orthogonal";
                   Map.version := 1; Map.backgroundColor := None;
                   Map.tilesets := [ts];
                   Map.scaledTileSize := mkVector NaN NaN;
                   Map.realSize := mkVector NaN NaN; Map.addChild_calls := [] |}
                ts 0x80000000 eq_refl Hf) as (W1 & W2 & W3 & _);
    exact (conj W1 (conj W2 W3))).
Defined.

Lemma lookups_ignore_flags_witness :
  exists ts,
    TiledTileset host0 settingsA = Ok ts /\
    contains ts (Some 0xC0000005) = contains ts (Some 5) /\
    getTileTexture ts (Some 0xC0000005) = getTileTexture ts (Some 5) /\
    contains ts (Some 5) = true /\ contains ts (Some 0xC0000005) = true.
Proof.
  eexists. split; [run|].
  with_built ltac:(fun ts =>
    assert (Hr : 0 <= 5 < 2^29) by (split; [discriminate|reflexivity]);
    destruct (lookups_ignore_flags host0 ts
                {| Map.size := mkVector NaN NaN; Map.properties := ∅;
                   Map.scale := mkVector VUndefined VUndefined;
                   Map.tileSize := mkVector 32 32; Map.orientation := "orthogonal";
                   Map.version := 1; Map.backgroundColor := None;
                   Map.tilesets := [ts];
                   Map.scaledTileSize := mkVector NaN NaN;
                   Map.realSize := mkVector NaN NaN; Map.addChild_calls := [] |}
                5 true true false Hr) as (W1 & W2 & _)).
  split; [exact W1|]. split; [exact W2|]. split; reflexivity.
Defined.

Lemma Fade_start_invariant_witness :
  duration (Fade_start (ANumber (num_of_Z 0)) (ANumber (num_of_Z 500))
              (ANumber (Fin (Q2Qc (1 # 2)))) AUndefined) = num_of_Z 500 /\
  goal (Fade_start (ANumber (num_of_Z 0)) (ANumber (num_of_Z 500))
          (ANumber (Fin (Q2Qc (1 # 2)))) AUndefined) = Fin (Q2Qc (1 # 2)) /\
  fill (Fade_start (ANumber (num_of_Z 0)) (ANumber (num_of_Z 500))
          (ANumber (Fin (Q2Qc (1 # 2)))) AUndefined) = num_of_Z 0 /\
  duration (Fade_start ANull (ANumber (num_of_Z (-5))) ANull AUndefined) = num_of_Z 1000.
Proof.
  destruct (proj2 (proj2 (proj2 (proj2
              (Fade_start_invariant (ANumber (num_of_Z 0)) (ANumber (num_of_Z 500))
                 (ANumber (Fin (Q2Qc (1 # 2)))) AUndefined))))
              eq_refl eq_refl eq_refl) as (W1 & _ & W2 & _ & W3 & _).
  destruct (proj2 (proj2 (proj2 (proj2
              (Fade_start_invariant ANull (ANumber (num_of_Z (-5))) ANull AUndefined))))
              eq_refl eq_refl eq_refl) as (_ & W4 & _).
  split; [apply W1; reflexivity|].
  split; [apply W2; [reflexivity|intros E; apply (f_equal this) in E; discriminate E]|].
  split; [apply W3; reflexivity|].
  apply W4. intros q [= <-] Hq. vm_compute in Hq. discriminate Hq.
Defined.
